(** * BlockCraft: the ledger engine of [Blockcraft.py]

    A shallow embedding of the classes [Block] and [Blockchain]
    (hashing, proof-of-work mining, the pending pool, balances and chain
    validation) together with the properties its specification states.

    Python values are modelled as follows.
    - [int] is [Z]; [str] is [string], one [ascii] per code point;
    - the [float] returned by [time.time()] is only ever handed to
      [json.dumps], so it is carried as the text [float.__repr__] gives;
    - a transaction dictionary has the five keys the program writes
      (['from'], ['to'], ['amount'], ['timestamp'], ['type']) and is a
      record; an amount is a Python number, an [int] (the mining reward)
      or a [float] (what the entry form stores), and arithmetic on
      amounts is Python's: exact on [int]s, IEEE 754 binary64 once a
      [float] is involved;
    - the difficulty counts characters and is a [nat];
    - object attributes are public and mutable in Python, hence a [Block]
      is a plain record whose [hash] field is independent of the others;
    - a method that updates [self] returns the updated object;
    - the clock is an input: operations that read it take the value read;
    - [json.dumps] is modelled on the values it serialises; the
      [ValueError] recent interpreters raise for an [int] of more than
      4300 digits is outside the model, and nothing below asserts that
      hashing or mining raises no exception;
    - the [while] loop of [mine_block] has no bound, so it runs on fuel. *)

From Stdlib Require Import ZArith List String Ascii Bool Lia.
From Stdlib Require Import PrimFloat.
From Stdlib Require SpecFloat FloatOps.
Import ListNotations.

Local Open Scope string_scope.
Local Open Scope list_scope.
Local Open Scope Z_scope.

(** Float literals are written in decimal, as Python prints them. *)
#[local] Set Warnings "-inexact-float".

(** ** hashlib.sha256 (FIPS 180-4) *)

Module SHA256.

(** Addition is modulo [2 ^ 32]: the low 32 bits are kept. *)
Definition w32 (x : Z) : Z := Z.land x 0xffffffff.
Definition add32 (x y : Z) : Z := w32 (x + y).
Definition shr (n x : Z) : Z := Z.shiftr x n.
Definition rotr (n x : Z) : Z :=
  Z.lor (Z.shiftr x n) (w32 (Z.shiftl x (32 - n))).
Definition not32 (x : Z) : Z := Z.lxor x 0xffffffff.

Definition Ch (x y z : Z) : Z := Z.lxor (Z.land x y) (Z.land (not32 x) z).
Definition Maj (x y z : Z) : Z :=
  Z.lxor (Z.lxor (Z.land x y) (Z.land x z)) (Z.land y z).
Definition Sigma0 (x : Z) : Z :=
  Z.lxor (Z.lxor (rotr 2 x) (rotr 13 x)) (rotr 22 x).
Definition Sigma1 (x : Z) : Z :=
  Z.lxor (Z.lxor (rotr 6 x) (rotr 11 x)) (rotr 25 x).
Definition sigma0 (x : Z) : Z :=
  Z.lxor (Z.lxor (rotr 7 x) (rotr 18 x)) (shr 3 x).
Definition sigma1 (x : Z) : Z :=
  Z.lxor (Z.lxor (rotr 17 x) (rotr 19 x)) (shr 10 x).

(** The constants are derived as the standard defines them: from the
    fractional parts of the cube roots (round constants) and of the square
    roots (initial hash value) of the first primes, 32 bits of each. *)
Definition is_prime (p : Z) : bool :=
  forallb (fun d => negb (p mod d =? 0))
          (map Z.of_nat (seq 2 (Z.to_nat (Z.sqrt p) - 1))).

Definition first_primes (n : nat) : list Z :=
  firstn n (filter is_prime (map Z.of_nat (seq 2 400))).

(** The integer cube root, one bit at a time from the top. *)
Fixpoint cube_root_bits (bits : nat) (n r : Z) : Z :=
  match bits with
  | O => r
  | S bits' =>
      let r' := r + 2 ^ Z.of_nat bits' in
      cube_root_bits bits' n (if r' * r' * r' <=? n then r' else r)
  end.

Definition K : list Z :=
  Eval vm_compute in
    map (fun p => w32 (cube_root_bits 40 (p * 2 ^ 96) 0)) (first_primes 64).

Definition H0 : list Z :=
  Eval vm_compute in
    map (fun p => w32 (Z.sqrt (p * 2 ^ 64))) (first_primes 8).

(** The eight working variables [a .. h]. *)
Record vars := Vars { va : Z; vb : Z; vc : Z; vd : Z;
                      ve : Z; vf : Z; vg : Z; vh : Z }.

Definition vars_of_list (l : list Z) : vars :=
  Vars (nth 0 l 0) (nth 1 l 0) (nth 2 l 0) (nth 3 l 0)
       (nth 4 l 0) (nth 5 l 0) (nth 6 l 0) (nth 7 l 0).

Definition list_of_vars (v : vars) : list Z :=
  [va v; vb v; vc v; vd v; ve v; vf v; vg v; vh v].

Definition round (v : vars) (k w : Z) : vars :=
  let t1 := w32 (vh v + Sigma1 (ve v) + Ch (ve v) (vf v) (vg v) + k + w) in
  let t2 := add32 (Sigma0 (va v)) (Maj (va v) (vb v) (vc v)) in
  Vars (add32 t1 t2) (va v) (vb v) (vc v) (add32 (vd v) t1)
       (ve v) (vf v) (vg v).

(** The message schedule is kept as a sliding window of sixteen words:
    the head is [W t], and the word sixteen places on is appended. *)
Definition next_window (win : list Z) : list Z :=
  let w := w32 (sigma1 (nth 14 win 0) + nth 9 win 0
                + sigma0 (nth 1 win 0) + nth 0 win 0) in
  tl win ++ [w].

Fixpoint rounds (ks : list Z) (win : list Z) (v : vars) : vars :=
  match ks with
  | [] => v
  | k :: ks' => rounds ks' (next_window win) (round v k (nth 0 win 0))
  end.

Definition compress (h : list Z) (block : list Z) : list Z :=
  map (fun p => add32 (fst p) (snd p))
      (combine h (list_of_vars (rounds K block (vars_of_list h)))).

(** Big-endian packing of bytes into 32-bit words. *)
Fixpoint words_of_bytes (bs : list Z) : list Z :=
  match bs with
  | b0 :: b1 :: b2 :: b3 :: rest =>
      (b0 * 2 ^ 24 + b1 * 2 ^ 16 + b2 * 2 ^ 8 + b3) :: words_of_bytes rest
  | _ => []
  end.

Definition be_bytes (n : nat) (x : Z) : list Z :=
  map (fun i => Z.shiftr x (8 * Z.of_nat i) mod 256) (rev (seq 0 n)).

Definition pad (msg : list Z) : list Z :=
  let len := Z.of_nat (List.length msg) in
  let zeros := Z.to_nat ((55 - len) mod 64) in
  msg ++ [0x80] ++ repeat 0 zeros ++ be_bytes 8 (8 * len).

Fixpoint blocks (n : nat) (ws : list Z) (h : list Z) : list Z :=
  match n with
  | O => h
  | S n' => blocks n' (skipn 16 ws) (compress h (firstn 16 ws))
  end.

Definition digest (msg : list Z) : list Z :=
  let ws := words_of_bytes (pad msg) in
  blocks (List.length ws / 16) ws H0.

Definition hex_digit (x : Z) : ascii :=
  if x <? 10 then ascii_of_N (Z.to_N (48 + x))
  else ascii_of_N (Z.to_N (87 + x)).

Fixpoint hex_of_bytes (bs : list Z) : string :=
  match bs with
  | [] => EmptyString
  | b :: bs' => String (hex_digit (b / 16))
                       (String (hex_digit (b mod 16)) (hex_of_bytes bs'))
  end.

Fixpoint encode (s : string) : list Z :=
  match s with
  | EmptyString => []
  | String c s' => Z.of_N (N_of_ascii c) :: encode s'
  end.

(** [hashlib.sha256(s.encode()).hexdigest()] for a string of ASCII
    characters, which [json.dumps] always produces. *)
Definition hexdigest (s : string) : string :=
  hex_of_bytes (flat_map (be_bytes 4) (digest (encode s))).

End SHA256.

(** ** json.dumps *)

Module JSON.

#[local] Unset Elimination Schemes.
Inductive json :=
| JInt (z : Z)
| JFloat (repr : string)
| JStr (s : string)
| JList (l : list json)
| JDict (items : list (string * json)).
#[local] Set Elimination Schemes.

Definition quote : string := String "034"%char EmptyString.

Definition hex4 (n : Z) : string :=
  String (SHA256.hex_digit (n / 4096 mod 16))
 (String (SHA256.hex_digit (n / 256 mod 16))
 (String (SHA256.hex_digit (n / 16 mod 16))
 (String (SHA256.hex_digit (n mod 16)) EmptyString))).

(** [ensure_ascii] is on by default: besides the quote and the backslash,
    every character outside [' ' .. '~'] is escaped. *)
Definition escape_char (c : ascii) : string :=
  let n := Z.of_N (N_of_ascii c) in
  if n =? 34 then ("\" ++ quote)%string
  else if n =? 92 then "\\"
  else if n =? 10 then "\n"
  else if n =? 13 then "\r"
  else if n =? 9 then "\t"
  else if n =? 8 then "\b"
  else if n =? 12 then "\f"
  else if (n <? 32) || (126 <? n) then ("\u" ++ hex4 n)%string
  else String c EmptyString.

Fixpoint escape (s : string) : string :=
  match s with
  | EmptyString => EmptyString
  | String c s' => (escape_char c ++ escape s')%string
  end.

Definition dumps_str (s : string) : string :=
  (quote ++ escape s ++ quote)%string.

Fixpoint digits (fuel : nat) (n : Z) (acc : string) : string :=
  match fuel with
  | O => acc
  | S fuel' =>
      let acc' := String (SHA256.hex_digit (n mod 10)) acc in
      if n <? 10 then acc' else digits fuel' (n / 10) acc'
  end.

Definition dumps_int (z : Z) : string :=
  let d := digits (S (Z.to_nat (Z.log2 (Z.abs z)))) (Z.abs z) EmptyString in
  if z <? 0 then String "-" d else d.

Fixpoint join (sep : string) (l : list string) : string :=
  match l with
  | [] => EmptyString
  | [x] => x
  | x :: l' => (x ++ sep ++ join sep l')%string
  end.

(** [sort_keys=True]: the items of a dictionary are written in the
    order of their keys. *)
Fixpoint insert_item (kv : string * string) (l : list (string * string))
  : list (string * string) :=
  match l with
  | [] => [kv]
  | kv' :: l' => if String.ltb (fst kv) (fst kv') then kv :: l
                 else kv' :: insert_item kv l'
  end.

Definition sort_items (l : list (string * string)) : list (string * string) :=
  fold_left (fun acc kv => insert_item kv acc) l [].

Fixpoint dumps (j : json) : string :=
  match j with
  | JInt z => dumps_int z
  | JFloat repr => repr
  | JStr s => dumps_str s
  | JList l => ("[" ++ join ", " (map dumps l) ++ "]")%string
  | JDict items =>
      let rendered := map (fun '(k, v) => (k, dumps v)) items in
      ("{" ++ join ", " (map (fun '(k, v) => dumps_str k ++ ": " ++ v)
                              (sort_items rendered)) ++ "}")%string
  end.

End JSON.

(** ** float.__repr__, as json.dumps writes a float

    The shortest decimal that is read back as the same float, the
    closest to it when there are several, laid out as Python does. *)

Module PyFloat.

(** Decimal digits of a natural number. *)
Definition decimal (n : Z) : string := JSON.dumps_int n.

(** [d * 10^k] against [c * 2^e], exactly. *)
Definition compare_scaled (d k c e : Z) : comparison :=
  (d * 10 ^ Z.max k 0 * 2 ^ Z.max (- e) 0
   ?= c * 2 ^ Z.max e 0 * 10 ^ Z.max (- k) 0).

(** The largest [t] with [10^t <= m * 2^e], for [m > 0]. *)
Definition floor_log10 (m e : Z) : Z :=
  let t0 := (Z.log2 m + e) * 30103 / 100000 in
  let t1 := match compare_scaled 1 t0 m e with
            | Gt => t0 - 1
            | _ => t0
            end in
  match compare_scaled 1 (t1 + 1) m e with
  | Gt => t1
  | _ => t1 + 1
  end.

(** Whether the decimal [d * 10^k] is read back as the float [m * 2^e]:
    it lies between the midpoints to the neighbouring floats, the
    midpoints themselves counting when [m] is even. *)
Definition reads_back (m e d k : Z) : bool :=
  let below := if (m =? 2 ^ 52) && (-1074 <? e) then 4 * m - 1 else 4 * m - 2 in
  let above := 4 * m + 2 in
  let inside c := match c with
                  | Lt => false
                  | Eq => Z.even m
                  | Gt => true
                  end in
  inside (compare_scaled d k below (e - 2))
  && inside (CompOpp (compare_scaled d k above (e - 2))).

(** The candidate with [n] digits, if one reads back: the closer of the
    two decimals around the float, the even one on a tie. *)
Definition candidate (m e t : Z) (n : nat) : option (Z * Z) :=
  let k := t - (Z.of_nat n - 1) in
  let lo := (m * 2 ^ Z.max e 0 * 10 ^ Z.max (- k) 0)
            / (2 ^ Z.max (- e) 0 * 10 ^ Z.max k 0) in
  let hi := lo + 1 in
  let lo_ok := reads_back m e lo k in
  let hi_ok := reads_back m e hi k in
  (* 2 * x against lo + hi, all in units of 10^k *)
  let side := compare_scaled (lo + hi) k (2 * m) e in
  if lo_ok && hi_ok then
    match side with
    | Gt => Some (lo, k)      (* x below the middle: lo is closer *)
    | Lt => Some (hi, k)
    | Eq => Some (if Z.even lo then lo else hi, k)
    end
  else if lo_ok then Some (lo, k)
  else if hi_ok then Some (hi, k)
  else None.

Fixpoint shortest (m e t : Z) (n fuel : nat) : Z * Z :=
  match fuel with
  | O => (m, e) (* not reached: 17 digits always read back *)
  | S fuel' =>
      match candidate m e t n with
      | Some dk => dk
      | None => shortest m e t (S n) fuel'
      end
  end.

Fixpoint strip_zeros (fuel : nat) (d k : Z) : Z * Z :=
  match fuel with
  | O => (d, k)
  | S fuel' => if (d mod 10 =? 0) && (0 <? d) then strip_zeros fuel' (d / 10) (k + 1)
               else (d, k)
  end.

Fixpoint pad (n : nat) : string :=
  match n with
  | O => EmptyString
  | S n' => String "0" (pad n')
  end.

(** [float.__repr__] of a positive finite float [m * 2^e]. *)
Definition repr_finite (m e : Z) : string :=
  let t := floor_log10 m e in
  let '(d, k) := shortest m e t 1 17 in
  let '(d, k) := strip_zeros 20 d k in
  let s := decimal d in
  let len := Z.of_nat (String.length s) in
  let decpt := len + k in
  if (decpt <=? -4) || (16 <? decpt) then
    let mantissa :=
      match s with
      | String c EmptyString => s
      | String c rest => String c (String "." rest)
      | EmptyString => s
      end in
    let x := decpt - 1 in
    let xs := decimal (Z.abs x) in
    let xs := if Z.abs x <? 10 then String "0" xs else xs in
    (mantissa ++ "e" ++ (if (x <? 0)%Z then "-" else "+") ++ xs)%string
  else if decpt <=? 0 then
    ("0." ++ pad (Z.to_nat (- decpt)) ++ s)%string
  else if len <=? decpt then
    (s ++ pad (Z.to_nat (decpt - len)) ++ ".0")%string
  else
    (substring 0 (Z.to_nat decpt) s ++ "."
     ++ substring (Z.to_nat decpt) (Z.to_nat (len - decpt)) s)%string.

(** What [json.dumps] writes for a float: [float.__repr__], with the
    names JavaScript gives to the values that are not numbers. *)
Definition dumps (f : float) : string :=
  match FloatOps.Prim2SF f with
  | SpecFloat.S754_nan => "NaN"
  | SpecFloat.S754_infinity false => "Infinity"
  | SpecFloat.S754_infinity true => "-Infinity"
  | SpecFloat.S754_zero false => "0.0"
  | SpecFloat.S754_zero true => "-0.0"
  | SpecFloat.S754_finite s m e =>
      let r := repr_finite (Zpos m) e in
      if s then String "-" r else r
  end.

End PyFloat.

(** ** Python numbers *)

Inductive number :=
| Int (z : Z)
| Float (f : float).

(** ** class Block *)

(** A [time.time()] reading, as [json.dumps] writes it. *)
Definition pyfloat := string.

Record Transaction := mkTransaction {
  tx_from : string;
  tx_to : string;
  tx_amount : number;
  tx_timestamp : string;
  tx_type : string
}.

Definition tx_json (tx : Transaction) : JSON.json :=
  JSON.JDict [ ("from", JSON.JStr (tx_from tx));
               ("to", JSON.JStr (tx_to tx));
               ("amount", match tx_amount tx with
                          | Int z => JSON.JInt z
                          | Float f => JSON.JFloat (PyFloat.dumps f)
                          end);
               ("timestamp", JSON.JStr (tx_timestamp tx));
               ("type", JSON.JStr (tx_type tx)) ].

Record Block := mkBlock {
  index : Z;
  transactions : list Transaction;
  timestamp : pyfloat;
  previous_hash : string;
  nonce : Z;
  hash : string
}.

Definition set_nonce (b : Block) (n : Z) : Block :=
  mkBlock (index b) (transactions b) (timestamp b) (previous_hash b) n (hash b).

Definition set_hash (b : Block) (h : string) : Block :=
  mkBlock (index b) (transactions b) (timestamp b) (previous_hash b) (nonce b) h.

Definition block_string (b : Block) : string :=
  JSON.dumps (JSON.JDict
    [ ("index", JSON.JInt (index b));
      ("transactions", JSON.JList (map tx_json (transactions b)));
      ("timestamp", JSON.JFloat (timestamp b));
      ("previous_hash", JSON.JStr (previous_hash b));
      ("nonce", JSON.JInt (nonce b)) ]).

Definition calculate_hash (b : Block) : string :=
  SHA256.hexdigest (block_string b).

(** [Block.__init__]: the digest is computed from the other five fields. *)
Definition Block_init (index : Z) (transactions : list Transaction)
    (timestamp : pyfloat) (previous_hash : string) (nonce : Z) : Block :=
  let self := mkBlock index transactions timestamp previous_hash nonce
                      EmptyString in
  set_hash self (calculate_hash self).

(** What a call can do: return, raise, or still be running when the
    fuel granted to its loop is spent. *)
Inductive exn := IndexError | OverflowError.

Inductive outcome (A : Type) :=
| Returned (a : A)
| Raised (e : exn)
| Unfinished.
Arguments Returned {A} a.
Arguments Raised {A} e.
Arguments Unfinished {A}.

(** *** Arithmetic on numbers *)

(** [float(z)] as the mixed operations apply it to an [int] operand:
    rounded to the nearest float, ties to even; an [int] beyond the
    range of floats raises [OverflowError]. *)
Definition float_of_int (z : Z) : outcome float :=
  match SpecFloat.binary_normalize 53 1024 z 0 false with
  | SpecFloat.S754_infinity _ => Raised OverflowError
  | rounded => Returned (FloatOps.SF2Prim rounded)
  end.

Definition to_float (x : number) : outcome float :=
  match x with
  | Int z => float_of_int z
  | Float f => Returned f
  end.

(** [x - y] *)
Definition py_sub (x y : number) : outcome number :=
  match x, y with
  | Int a, Int b => Returned (Int (a - b))
  | _, _ =>
      match to_float x, to_float y with
      | Returned f, Returned g => Returned (Float (f - g))
      | Returned _, other => match other with
                             | Raised e => Raised e
                             | _ => Unfinished
                             end
      | Raised e, _ => Raised e
      | Unfinished, _ => Unfinished
      end
  end.

(** [x + y] *)
Definition py_add (x y : number) : outcome number :=
  match x, y with
  | Int a, Int b => Returned (Int (a + b))
  | _, _ =>
      match to_float x, to_float y with
      | Returned f, Returned g => Returned (Float (f + g))
      | Returned _, other => match other with
                             | Raised e => Raised e
                             | _ => Unfinished
                             end
      | Raised e, _ => Raised e
      | Unfinished, _ => Unfinished
      end
  end.

(** A [for] loop whose body may raise: the first exception ends it. *)
Fixpoint for_each {A B : Type} (body : A -> B -> outcome A) (l : list B)
    (acc : A) : outcome A :=
  match l with
  | [] => Returned acc
  | x :: l' =>
      match body acc x with
      | Returned acc' => for_each body l' acc'
      | Raised e => Raised e
      | Unfinished => Unfinished
      end
  end.

(** ["0" * difficulty] *)
Fixpoint zeros (difficulty : nat) : string :=
  match difficulty with
  | O => EmptyString
  | S d => String "0" (zeros d)
  end.

(** [self.hash[:difficulty] != target] *)
Definition below_target (b : Block) (difficulty : nat) : bool :=
  negb (String.eqb (substring 0 difficulty (hash b)) (zeros difficulty)).

(** One pass through the body of the [while] loop. *)
Definition try_next_nonce (b : Block) : Block :=
  let b := set_nonce b (nonce b + 1) in
  set_hash b (calculate_hash b).

(** [Block.mine_block]; the closing [print] writes to the console only. *)
Fixpoint mine_block (fuel : nat) (self : Block) (difficulty : nat)
  : outcome Block :=
  if below_target self difficulty then
    match fuel with
    | O => Unfinished
    | S fuel' => mine_block fuel' (try_next_nonce self) difficulty
    end
  else Returned self.

(** ** class Blockchain *)

Record Blockchain := mkBlockchain {
  chain : list Block;
  difficulty : nat;
  pending_transactions : list Transaction;
  mining_reward : Z
}.

Definition create_genesis_block (now : pyfloat) : Block :=
  Block_init 0 [] now "0" 0.

(** [Blockchain.__init__] *)
Definition Blockchain_init (now : pyfloat) : Blockchain :=
  mkBlockchain [create_genesis_block now] 2 [] 100.

(** [self.chain[-1]] *)
Definition get_latest_block (self : Blockchain) : outcome Block :=
  match last (map Some (chain self)) None with
  | Some b => Returned b
  | None => Raised IndexError
  end.

Definition add_transaction (self : Blockchain) (transaction : Transaction)
  : Blockchain :=
  mkBlockchain (chain self) (difficulty self)
               (pending_transactions self ++ [transaction])
               (mining_reward self).

Definition reward_transaction (self : Blockchain)
    (mining_reward_address now_text : string) : Transaction :=
  mkTransaction "SYSTEM" mining_reward_address (Int (mining_reward self))
                now_text "mining_reward".

(** [Blockchain.mine_pending_transactions]. [now_text] is what
    [datetime.now().strftime(...)] gave and [now] what [time.time()] gave.
    The result is the block returned and the ledger as the call leaves it. *)
Definition mine_pending_transactions (fuel : nat) (self : Blockchain)
    (mining_reward_address now_text : string) (now : pyfloat)
  : outcome (Block * Blockchain) :=
  let transactions_to_mine := pending_transactions self in
  let transactions_to_mine :=
    transactions_to_mine
      ++ [reward_transaction self mining_reward_address now_text] in
  match get_latest_block self with
  | Returned latest =>
      let block := Block_init (Z.of_nat (List.length (chain self)))
                              transactions_to_mine now (hash latest) 0 in
      match mine_block fuel block (difficulty self) with
      | Returned block =>
          Returned (block,
                    mkBlockchain (chain self ++ [block]) (difficulty self)
                                 [] (mining_reward self))
      | Raised e => Raised e
      | Unfinished => Unfinished
      end
  | Raised e => Raised e
  | Unfinished => Unfinished
  end.

(** The body of the inner [for] of [get_balance]. *)
Definition balance_step (address : string) (balance : number)
    (transaction : Transaction) : outcome number :=
  match (if String.eqb (tx_from transaction) address
         then py_sub balance (tx_amount transaction)
         else Returned balance) with
  | Returned balance =>
      if String.eqb (tx_to transaction) address
      then py_add balance (tx_amount transaction)
      else Returned balance
  | Raised e => Raised e
  | Unfinished => Unfinished
  end.

Definition get_balance (self : Blockchain) (address : string)
  : outcome number :=
  for_each (fun balance block =>
              for_each (balance_step address) (transactions block) balance)
           (chain self) (Int 0).

(** The [for i in range(1, len(self.chain))] loop of [is_chain_valid],
    over the indices still to visit. *)
Fixpoint is_chain_valid_loop (chain : list Block) (indices : list nat)
  : bool :=
  match indices with
  | [] => true
  | i :: rest =>
      match nth_error chain i, nth_error chain (i - 1) with
      | Some current_block, Some previous_block =>
          if negb (String.eqb (hash current_block)
                              (calculate_hash current_block))
          then false
          else if negb (String.eqb (previous_hash current_block)
                                   (hash previous_block))
          then false
          else is_chain_valid_loop chain rest
      | _, _ => false (* not reached: [0 < i < len(self.chain)] *)
      end
  end.

Definition is_chain_valid (self : Blockchain) : bool :=
  is_chain_valid_loop (chain self)
                      (seq 1 (List.length (chain self) - 1)).

(** ** Vocabulary of the specification *)

(** The first [d] characters of [s] are all ['0']. *)
Definition leading_zeros (d : nat) (s : string) : Prop :=
  forall i, (i < d)%nat -> String.get i s = Some "0"%char.

(** The stored digest is the one the Hasher gives for the other fields. *)
Definition digest_current (b : Block) : Prop :=
  hash b = calculate_hash b.

(** The digest the block would have with nonce [n]. *)
Definition digest_at (b : Block) (n : Z) : string :=
  calculate_hash (set_nonce b n).

(** Every transaction sealed in the chain, in order. *)
Definition sealed_transactions (self : Blockchain) : list Transaction :=
  flat_map transactions (chain self).

(** The amounts of [l] are all [int]s. *)
Definition all_int (l : list Transaction) : bool :=
  forallb (fun tx => match tx_amount tx with
                     | Int _ => true
                     | Float _ => false
                     end) l.

(** An [int] amount as an integer. *)
Definition int_amount (tx : Transaction) : Z :=
  match tx_amount tx with
  | Int z => z
  | Float _ => 0
  end.

(** Sum of the [int] amounts of the transactions of [l] selected by [p]. *)
Definition total (p : Transaction -> bool) (l : list Transaction) : Z :=
  fold_right (fun tx acc => if p tx then int_amount tx + acc else acc) 0 l.

(** The two sums added up one amount after the other with Python's [+],
    from the [int] 0. *)
Definition py_total (p : Transaction -> bool) (l : list Transaction)
  : outcome number :=
  for_each (fun acc tx => if p tx then py_add acc (tx_amount tx)
                          else Returned acc) l (Int 0).

Definition py_received (self : Blockchain) (address : string)
  : outcome number :=
  py_total (fun tx => String.eqb (tx_to tx) address)
           (sealed_transactions self).

Definition py_sent (self : Blockchain) (address : string) : outcome number :=
  py_total (fun tx => String.eqb (tx_from tx) address)
           (sealed_transactions self).

Definition received (self : Blockchain) (address : string) : Z :=
  total (fun tx => String.eqb (tx_to tx) address) (sealed_transactions self).

Definition sent (self : Blockchain) (address : string) : Z :=
  total (fun tx => String.eqb (tx_from tx) address) (sealed_transactions self).

(** [chain[i].previous_hash == chain[i-1].hash] for every [i > 0]. *)
Definition linked (chain : list Block) : Prop :=
  forall i current previous,
    (0 < i)%nat ->
    nth_error chain i = Some current ->
    nth_error chain (i - 1) = Some previous ->
    previous_hash current = hash previous.

(** One call of the ledger's two mutating operations. *)
Inductive step (self : Blockchain) : Blockchain -> Prop :=
| step_add (transaction : Transaction) :
    step self (add_transaction self transaction)
| step_mine (fuel : nat) (address now_text : string) (now : pyfloat)
            (block : Block) (self' : Blockchain) :
    mine_pending_transactions fuel self address now_text now
      = Returned (block, self') ->
    step self self'.

(** The ledgers a program can build from [Blockchain()]. *)
Inductive reachable : Blockchain -> Prop :=
| reachable_init (now : pyfloat) : reachable (Blockchain_init now)
| reachable_step (self self' : Blockchain) :
    reachable self -> step self self' -> reachable self'.

(** The block handed to the miner. *)
Definition candidate_block (self : Blockchain)
    (mining_reward_address now_text : string) (now : pyfloat)
    (latest : Block) : Block :=
  Block_init (Z.of_nat (List.length (chain self)))
             (pending_transactions self
                ++ [reward_transaction self mining_reward_address now_text])
             now (hash latest) 0.

(** ** Concrete blocks and ledgers *)

(** An unsealed block; nonce 5 is the first that gives its digest one
    leading zero. *)
Definition loose_block : Block := Block_init 7 [] "6.5" "00ab" 0.

Definition loose_block_sealed : Block :=
  mkBlock 7 [] "6.5" "00ab" 5
    "0538fe0d4a50653cb7621a39744bddb79251894420d50656c840ccbe001a86ff".

(** [Blockchain()] at time 1730000000.5. *)
Definition fresh_ledger : Blockchain := Blockchain_init "1730000000.5".

Definition genesis : Block :=
  mkBlock 0 [] "1730000000.5" "0" 0
    "0f12fff35725a6e5df9d708fa5c8211689ab645f30a6ded49d1f61a5be8ec32b".

Definition transfer : Transaction :=
  mkTransaction "alice" "bob" (Int 50) "2024-10-27 03:33:50" "transfer".

Definition reward : Transaction :=
  mkTransaction "SYSTEM" "alice" (Int 100) "2024-10-27 03:34:20" "mining_reward".

(** The fresh ledger after [add_transaction(transfer)]. *)
Definition ledger_pending : Blockchain := add_transaction fresh_ledger transfer.

(** The block [mine_pending_transactions("alice")] then seals at time
    1730000093.25, and the ledger it leaves. *)
Definition block_1 : Block :=
  mkBlock 1 [transfer; reward] "1730000093.25" (hash genesis) 3
    "007242171a2365e9b20f932617f489ebe17689e353cff55d8575a5d7079d15dc".

Definition ledger_mined : Blockchain := mkBlockchain [genesis; block_1] 2 [] 100.

(** Mining the fresh ledger with nothing pending, at time 1730000065.5. *)
Definition block_reward_only : Block :=
  mkBlock 1 [reward] "1730000065.5" (hash genesis) 3
    "00ff0205a5434af60a13f3d3891e0cc6fe6f39b13ce221189c05ec4f1164d97d".

(** The genesis block after its transaction list was overwritten, the
    stored digest left as it was. *)
Definition forged : Transaction :=
  mkTransaction "SYSTEM" "mallory" (Int 5000) "2024-10-27 03:30:00" "mining_reward".

Definition genesis_rewritten : Block :=
  mkBlock 0 [forged] "1730000000.5" "0" 0 (hash genesis).

Definition ledger_rewritten : Blockchain :=
  mkBlockchain [genesis_rewritten; block_1] 2 [] 100.

(** A sealed block in which alice pays herself. *)
Definition self_payment : Transaction :=
  mkTransaction "alice" "alice" (Int 30) "2024-10-27 03:35:00" "transfer".

Definition ledger_self_payment : Blockchain :=
  mkBlockchain
    [genesis; Block_init 1 [transfer; self_payment; reward] "1730000093.25"
                         (hash genesis) 0] 2 [] 100.

(** A ledger with float amounts.  From the ledger in which alice mined
    the reward alone: alice pays bob 0.2 and herself 16.1, and carol mines
    at time 1730000235.25. *)
Definition ledger_rewarded : Blockchain :=
  mkBlockchain [genesis; block_reward_only] 2 [] 100.

Definition float_transfer : Transaction :=
  mkTransaction "alice" "bob" (Float 0.2) "2024-10-27 03:36:00" "transfer".

Definition float_self_payment : Transaction :=
  mkTransaction "alice" "alice" (Float 16.1) "2024-10-27 03:36:30" "transfer".

Definition reward_carol : Transaction :=
  mkTransaction "SYSTEM" "carol" (Int 100) "2024-10-27 03:37:00"
                "mining_reward".

Definition block_float : Block :=
  mkBlock 2 [float_transfer; float_self_payment; reward_carol]
    "1730000235.25" (hash block_reward_only) 1
    "0097f1ac11dea7d9da598c6f84855a037335b12be0cbd708cce70e0f2e08ab1a".

Definition ledger_float : Blockchain :=
  mkBlockchain [genesis; block_reward_only; block_float] 2 [] 100.

(** The same without the payment of alice to herself, mined at time
    1730000283.5. *)
Definition block_float_plain : Block :=
  mkBlock 2 [float_transfer; reward_carol]
    "1730000283.5" (hash block_reward_only) 1
    "0032789b9a6b6266cb79b843d05e02f2f8b0ea88ac241e282f4f1f06c18865d0".

Definition ledger_float_plain : Blockchain :=
  mkBlockchain [genesis; block_reward_only; block_float_plain] 2 [] 100.

(** ** The counters of the presentation layer *)

(** [update_stats]:
    [sum(len(block.transactions) for block in self.blockchain.chain)] *)
Definition total_transactions (self : Blockchain) : Z :=
  fold_left (fun acc block =>
               acc + Z.of_nat (List.length (transactions block)))
            (chain self) 0.

(** [update_stats]: [sum(1 for block in ... for tx in block.transactions
    if tx.get('type') == 'mining_reward')] *)
Definition mining_rewards (self : Blockchain) : Z :=
  fold_left (fun acc block =>
               fold_left (fun acc tx =>
                            if String.eqb (tx_type tx) "mining_reward"
                            then acc + 1 else acc)
                         (transactions block) acc)
            (chain self) 0.

(** [update_stats]: [total_transactions - mining_rewards] *)
Definition regular_transactions (self : Blockchain) : Z :=
  total_transactions self - mining_rewards self.

(** [_mining_complete]: [[tx for tx in block.transactions
    if tx.get('type') != 'mining_reward']] *)
Definition mining_complete_regular_transactions (block : Block)
  : list Transaction :=
  filter (fun tx => negb (String.eqb (tx_type tx) "mining_reward"))
         (transactions block).

(** ** Further vocabulary *)

(** Every character of [s] is one of [0123456789abcdef]. *)
Definition lowercase_hex (s : string) : Prop :=
  forall i c, String.get i s = Some c ->
              In c (list_ascii_of_string "0123456789abcdef").

(** Everything the ledger holds, sealed first, then pending. *)
Definition ledger_history (self : Blockchain) : list Transaction :=
  sealed_transactions self ++ pending_transactions self.

(** Sum of a list of balances. *)
Definition sum_Z (l : list Z) : Z := fold_right Z.add 0 l.

(** The reward transactions [mine_pending_transactions] writes on a ledger
    that still has the reward [Blockchain.__init__] sets. *)
Definition is_reward (tx : Transaction) : Prop :=
  tx_from tx = "SYSTEM" /\ tx_amount tx = Int 100 /\
  tx_type tx = "mining_reward".

(** What holds of the block at position [i] of a ledger built through the
    two operations: the genesis block as [create_genesis_block] makes it,
    a later block as the miner leaves it. *)
Definition block_in_place (i : nat) (b : Block) : Prop :=
  index b = Z.of_nat i /\
  digest_current b /\
  match i with
  | O => transactions b = [] /\ previous_hash b = "0" /\ nonce b = 0
  | S _ => leading_zeros 2 (hash b) /\
           exists pool tx, transactions b = pool ++ [tx] /\ is_reward tx
  end.

Definition ledger_in_place (self : Blockchain) : Prop :=
  difficulty self = 2%nat /\
  mining_reward self = 100 /\
  chain self <> [] /\
  forall i b, nth_error (chain self) i = Some b -> block_in_place i b.

(** The rewritten genesis block with its digest recomputed after the
    rewrite. *)
Definition genesis_rewritten_resealed : Block :=
  Block_init 0 [forged] "1730000000.5" "0" 0.

(** ** Strings *)

Lemma substring_zeros (d : nat) (s : string) :
  substring 0 d s = zeros d <-> leading_zeros d s.
Proof.
  revert s. induction d as [|d IH]; intros s.
  - split; intros _.
    + intros i Hi. inversion Hi.
    + destruct s; reflexivity.
  - destruct s as [|c s]; cbn [substring zeros].
    + split; [discriminate|].
      intros H. specialize (H 0%nat (Nat.lt_0_succ d)). discriminate.
    + split.
      * intros H. injection H as Hc Hs. subst c.
        intros [|i] Hi; [reflexivity|].
        cbn [String.get]. apply IH; [assumption|lia].
      * intros H.
        pose proof (H 0%nat (Nat.lt_0_succ d)) as H0.
        cbn in H0. injection H0 as ->. f_equal.
        apply IH. intros i Hi. apply (H (S i)). lia.
Qed.

Lemma below_target_false (b : Block) (d : nat) :
  below_target b d = false <-> leading_zeros d (hash b).
Proof.
  unfold below_target. rewrite negb_false_iff, String.eqb_eq.
  apply substring_zeros.
Qed.

Lemma below_target_true (b : Block) (d : nat) :
  below_target b d = true <-> ~ leading_zeros d (hash b).
Proof.
  rewrite <- below_target_false. destruct (below_target b d); split;
    congruence.
Qed.

(** ** The Hasher and one pass of the mining loop *)

Lemma digest_at_nonce (b : Block) : digest_at b (nonce b) = calculate_hash b.
Proof. destruct b. reflexivity. Qed.

Lemma try_next_nonce_current (b : Block) : digest_current (try_next_nonce b).
Proof. reflexivity. Qed.

Lemma digest_at_try_next_nonce (b : Block) (n : Z) :
  digest_at (try_next_nonce b) n = digest_at b n.
Proof. reflexivity. Qed.

(** A block rebuilt from its own fields. *)
Lemma block_eta (b : Block) :
  set_hash (set_nonce b (nonce b)) (hash b) = b.
Proof. destruct b. reflexivity. Qed.

Lemma set_hash_set_nonce_try (b : Block) (n : Z) (h : string) :
  set_hash (set_nonce (try_next_nonce b) n) h = set_hash (set_nonce b n) h.
Proof. reflexivity. Qed.

Lemma Block_init_current (index : Z) (transactions : list Transaction)
    (timestamp : pyfloat) (previous_hash : string) (nonce : Z) :
  digest_current (Block_init index transactions timestamp previous_hash nonce).
Proof. reflexivity. Qed.

Lemma not_leading_zeros (d : nat) (s : string) :
  String.eqb (substring 0 d s) (zeros d) = false -> ~ leading_zeros d s.
Proof.
  intros H Hz. apply substring_zeros in Hz. apply String.eqb_neq in H.
  contradiction.
Qed.

(** ** The mining loop *)

Lemma mine_block_unfold (fuel : nat) (b : Block) (d : nat) :
  mine_block fuel b d
  = if below_target b d then
      match fuel with
      | O => Unfinished
      | S fuel' => mine_block fuel' (try_next_nonce b) d
      end
    else Returned b.
Proof. destruct fuel; reflexivity. Qed.

(** More fuel does not change a result already obtained. *)
Lemma mine_block_more_fuel (fuel fuel' : nat) (b b' : Block) (d : nat) :
  mine_block fuel b d = Returned b' -> (fuel <= fuel')%nat ->
  mine_block fuel' b d = Returned b'.
Proof.
  revert fuel' b. induction fuel as [|fuel IH]; intros fuel' b H Hle;
    rewrite mine_block_unfold in H; rewrite mine_block_unfold;
    destruct (below_target b d); try discriminate; try assumption.
  destruct fuel' as [|fuel']; [lia|]. apply IH; [assumption|lia].
Qed.

(** Mining touches the nonce and the digest only, and never lowers the
    nonce. *)
Lemma mine_block_frame (fuel : nat) (b b' : Block) (d : nat) :
  mine_block fuel b d = Returned b' ->
  index b' = index b /\ transactions b' = transactions b /\
  timestamp b' = timestamp b /\ previous_hash b' = previous_hash b /\
  nonce b <= nonce b'.
Proof.
  revert b. induction fuel as [|fuel IH]; intros b H;
    rewrite mine_block_unfold in H; destruct (below_target b d);
    try discriminate.
  - injection H as <-. repeat split; lia.
  - apply IH in H. cbn in H. intuition lia.
  - injection H as <-. repeat split; lia.
Qed.

(** What a returning search leaves behind. *)
Lemma mine_block_sealed (fuel : nat) (b b' : Block) (d : nat) :
  mine_block fuel b d = Returned b' ->
  leading_zeros d (hash b') /\
  (digest_current b \/ nonce b' <> nonce b -> digest_current b').
Proof.
  revert b. induction fuel as [|fuel IH]; intros b H;
    rewrite mine_block_unfold in H;
    destruct (below_target b d) eqn:Hb; try discriminate.
  - injection H as <-. split; [now apply below_target_false|].
    intros [Hc|Hn]; [assumption|congruence].
  - destruct (IH _ H) as [Hz Hc]. split; [assumption|].
    intros _. apply Hc. left. apply try_next_nonce_current.
  - injection H as <-. split; [now apply below_target_false|].
    intros [Hc|Hn]; [assumption|congruence].
Qed.

(** Starting from a current digest, [k] units of fuel are enough when the
    nonce [k] places on seals the block, and the search stops at the
    first nonce that does. *)
Lemma mine_block_least (k : nat) (b : Block) (d : nat) :
  digest_current b ->
  leading_zeros d (digest_at b (nonce b + Z.of_nat k)) ->
  exists b',
    mine_block k b d = Returned b' /\
    nonce b <= nonce b' <= nonce b + Z.of_nat k /\
    b' = set_hash (set_nonce b (nonce b')) (digest_at b (nonce b')) /\
    leading_zeros d (digest_at b (nonce b')) /\
    (forall m, nonce b <= m < nonce b' ->
               ~ leading_zeros d (digest_at b m)).
Proof.
  revert b. induction k as [|k IH]; intros b Hcur Hk;
    rewrite mine_block_unfold; destruct (below_target b d) eqn:Hb.
  - exfalso. apply below_target_true in Hb. apply Hb.
    replace (nonce b + Z.of_nat 0) with (nonce b) in Hk by lia.
    rewrite digest_at_nonce in Hk. unfold digest_current in Hcur.
    now rewrite Hcur.
  - apply below_target_false in Hb. exists b. split; [reflexivity|].
    split; [lia|]. rewrite digest_at_nonce, <- Hcur. split.
    + symmetry. apply block_eta.
    + split; [assumption|]. intros m Hm. lia.
  - destruct (IH (try_next_nonce b)) as (b' & Hm & Hn & Heq & Hz & Hmin).
    + apply try_next_nonce_current.
    + rewrite digest_at_try_next_nonce. cbn [try_next_nonce nonce set_hash set_nonce].
      now replace (nonce b + 1 + Z.of_nat k)
        with (nonce b + Z.of_nat (S k)) by lia.
    + cbn [try_next_nonce nonce set_hash set_nonce] in Hn.
      exists b'. split; [assumption|]. split; [lia|].
      rewrite digest_at_try_next_nonce in Heq, Hz.
      rewrite set_hash_set_nonce_try in Heq.
      split; [assumption|]. split; [assumption|].
      intros m Hm'. destruct (Z.eq_dec m (nonce b)) as [->|Hne].
      * apply below_target_true in Hb.
        now rewrite digest_at_nonce, <- Hcur.
      * rewrite <- (digest_at_try_next_nonce b). apply Hmin.
        cbn [try_next_nonce nonce set_hash set_nonce]. lia.
  - apply below_target_false in Hb. exists b. split; [reflexivity|].
    split; [lia|]. rewrite digest_at_nonce, <- Hcur. split.
    + symmetry. apply block_eta.
    + split; [assumption|]. intros m Hm. lia.
Qed.

(** The search ends once some nonce ahead seals the block. *)
Lemma mine_block_returns (b : Block) (d : nat) (n : Z) :
  digest_current b -> nonce b <= n -> leading_zeros d (digest_at b n) ->
  exists fuel sealed, mine_block fuel b d = Returned sealed.
Proof.
  intros Hcur Hn Hz.
  destruct (mine_block_least (Z.to_nat (n - nonce b)) b d Hcur)
    as (sealed & Hm & _).
  - now replace (nonce b + Z.of_nat (Z.to_nat (n - nonce b))) with n by lia.
  - eauto.
Qed.

(** ** The ledger *)

Lemma get_latest_block_Returned (self : Blockchain) (latest : Block) :
  get_latest_block self = Returned latest <->
  exists front, chain self = front ++ [latest].
Proof.
  unfold get_latest_block. destruct self as [c d p r]. cbn [chain].
  split.
  - intros H. destruct c as [|b c] using rev_ind; [discriminate|].
    rewrite map_app in H. cbn [map] in H. rewrite last_last in H.
    injection H as ->. now exists c.
  - intros [front ->]. rewrite map_app. cbn [map]. now rewrite last_last.
Qed.

Lemma get_latest_block_Raised (self : Blockchain) :
  get_latest_block self = Raised IndexError <-> chain self = [].
Proof.
  unfold get_latest_block. destruct self as [c d p r]. cbn [chain].
  destruct c as [|b c] using rev_ind.
  - split; reflexivity.
  - rewrite map_app. cbn [map]. rewrite last_last. split; [discriminate|].
    intros H. now destruct c.
Qed.

Lemma mine_pending_transactions_Returned (fuel : nat) (self : Blockchain)
    (address now_text : string) (now : pyfloat)
    (block : Block) (self' : Blockchain) :
  mine_pending_transactions fuel self address now_text now
    = Returned (block, self') <->
  exists latest,
    get_latest_block self = Returned latest /\
    mine_block fuel (candidate_block self address now_text now latest)
               (difficulty self) = Returned block /\
    self' = mkBlockchain (chain self ++ [block]) (difficulty self) []
                         (mining_reward self).
Proof.
  unfold mine_pending_transactions, candidate_block.
  destruct (get_latest_block self) as [latest|e|].
  - destruct (mine_block fuel _ (difficulty self)) as [b|e|] eqn:Hm.
    + split.
      * intros H. injection H as <- <-. now exists latest.
      * intros (l & Hl & Hb & ->). injection Hl as <-.
        rewrite Hm in Hb. now injection Hb as ->.
    + split; [discriminate|]. intros (l & Hl & Hb & _).
      injection Hl as <-. rewrite Hm in Hb. discriminate.
    + split; [discriminate|]. intros (l & Hl & Hb & _).
      injection Hl as <-. rewrite Hm in Hb. discriminate.
  - split; [discriminate|]. intros (l & Hl & _). discriminate.
  - split; [discriminate|]. intros (l & Hl & _). discriminate.
Qed.

Lemma candidate_block_current (self : Blockchain) (address now_text : string)
    (now : pyfloat) (latest : Block) :
  digest_current (candidate_block self address now_text now latest).
Proof. reflexivity. Qed.

(** On a ledger whose chain was emptied, [self.chain[-1]] raises before
    anything is mined or changed. *)
Lemma mine_pending_transactions_empty_chain (fuel : nat) (self : Blockchain)
    (address now_text : string) (now : pyfloat) :
  chain self = [] ->
  mine_pending_transactions fuel self address now_text now = Raised IndexError.
Proof.
  intros H. apply (get_latest_block_Raised self) in H.
  unfold mine_pending_transactions. now rewrite H.
Qed.

(** The shape of what a returning [mine_pending_transactions] leaves. *)
Lemma mine_pending_transactions_shape (fuel : nat) (self : Blockchain)
    (address now_text : string) (now : pyfloat)
    (block : Block) (self' : Blockchain) :
  mine_pending_transactions fuel self address now_text now
    = Returned (block, self') ->
  chain self' = chain self ++ [block] /\
  index block = Z.of_nat (List.length (chain self)) /\
  (exists front latest,
      chain self = front ++ [latest] /\ previous_hash block = hash latest) /\
  transactions block
    = pending_transactions self
        ++ [reward_transaction self address now_text] /\
  pending_transactions self' = [] /\
  difficulty self' = difficulty self /\
  mining_reward self' = mining_reward self.
Proof.
  intros H.
  apply mine_pending_transactions_Returned in H as (latest & Hl & Hm & ->).
  apply get_latest_block_Returned in Hl as [front Hf].
  apply mine_block_frame in Hm as (Hi & Ht & _ & Hp & _).
  cbn [chain pending_transactions difficulty mining_reward].
  repeat split; try assumption.
  exists front, latest. split; assumption.
Qed.

(** It returns when the chain has a last block and a nonce seals the
    candidate. *)
Lemma mine_pending_transactions_returns (self : Blockchain)
    (address now_text : string) (now : pyfloat)
    (front : list Block) (latest : Block) (n : Z) :
  chain self = front ++ [latest] ->
  0 <= n ->
  leading_zeros (difficulty self)
    (digest_at (candidate_block self address now_text now latest) n) ->
  exists fuel block self',
    mine_pending_transactions fuel self address now_text now
      = Returned (block, self').
Proof.
  intros Hc Hn Hz.
  destruct (mine_block_returns
              (candidate_block self address now_text now latest)
              (difficulty self) n) as (fuel & block & Hm);
    [apply candidate_block_current|assumption|assumption|].
  exists fuel, block,
    (mkBlockchain (chain self ++ [block]) (difficulty self) []
                  (mining_reward self)).
  apply mine_pending_transactions_Returned. exists latest.
  repeat split; [|assumption].
  apply get_latest_block_Returned. now exists front.
Qed.

(** *** Linkage *)

Lemma linked_snoc (front : list Block) (latest block : Block) :
  linked (front ++ [latest]) ->
  previous_hash block = hash latest ->
  linked ((front ++ [latest]) ++ [block]).
Proof.
  intros Hl Hp i cur prev Hi Hc Hv.
  assert (Hlen : List.length (front ++ [latest]) = S (List.length front))
    by (rewrite length_app; cbn; lia).
  destruct (Nat.lt_trichotomy i (List.length (front ++ [latest])))
    as [Hlt|[Heq|Hgt]].
  - rewrite nth_error_app1 in Hc, Hv by lia. now apply (Hl i).
  - subst i. rewrite nth_error_app2, Nat.sub_diag in Hc by lia.
    injection Hc as <-.
    rewrite nth_error_app1 in Hv by lia. rewrite Hlen in Hv.
    replace (S (List.length front) - 1)%nat with (List.length front) in Hv
      by lia.
    rewrite nth_error_app2, Nat.sub_diag in Hv by lia.
    injection Hv as <-. assumption.
  - assert (Hn : nth_error ((front ++ [latest]) ++ [block]) i = None).
    { apply nth_error_None. rewrite length_app. cbn. lia. }
    congruence.
Qed.

Lemma linked_single (b : Block) : linked [b].
Proof.
  intros i cur prev Hi Hc _. destruct i as [|i]; [lia|].
  cbn in Hc. destruct i; discriminate.
Qed.

Lemma step_chain (self self' : Blockchain) :
  step self self' ->
  chain self' = chain self \/
  exists front latest block,
    chain self = front ++ [latest] /\
    chain self' = chain self ++ [block] /\
    previous_hash block = hash latest.
Proof.
  intros [tx|fuel address now_text now block self'' H].
  - now left.
  - right. apply mine_pending_transactions_shape in H
      as (Hc & _ & (front & latest & Hf & Hp) & _).
    now exists front, latest, block.
Qed.

Lemma reachable_linked (self : Blockchain) :
  reachable self -> linked (chain self).
Proof.
  induction 1 as [now|self self' _ IH Hs].
  - apply linked_single.
  - apply step_chain in Hs
      as [->|(front & latest & block & Hf & -> & Hp)]; [assumption|].
    rewrite Hf in *. now apply linked_snoc.
Qed.

(** *** Balances *)

Lemma total_app (p : Transaction -> bool) (l1 l2 : list Transaction) :
  total p (l1 ++ l2) = total p l1 + total p l2.
Proof.
  induction l1 as [|tx l1 IH]; cbn; [reflexivity|].
  fold (total p (l1 ++ l2)) (total p l1). rewrite IH.
  destruct (p tx); lia.
Qed.

Lemma for_each_app (A B : Type) (body : A -> B -> outcome A)
    (l1 l2 : list B) (acc : A) :
  for_each body (l1 ++ l2) acc
  = match for_each body l1 acc with
    | Returned acc' => for_each body l2 acc'
    | Raised e => Raised e
    | Unfinished => Unfinished
    end.
Proof.
  revert acc. induction l1 as [|x l1 IH]; intros acc; cbn [app for_each];
    [reflexivity|].
  destruct (body acc x); [apply IH|reflexivity|reflexivity].
Qed.

Lemma total_cons (p : Transaction -> bool) (tx : Transaction)
    (l : list Transaction) :
  total p (tx :: l) = (if p tx then int_amount tx else 0) + total p l.
Proof. unfold total. cbn [fold_right]. destruct (p tx); lia. Qed.

(** On [int] amounts the loop of [get_balance] is exact. *)
Lemma fold_balance_step (address : string) (l : list Transaction) (acc : Z) :
  all_int l = true ->
  for_each (balance_step address) l (Int acc)
  = Returned (Int (acc + total (fun tx => String.eqb (tx_to tx) address) l
                       - total (fun tx => String.eqb (tx_from tx) address) l)).
Proof.
  revert acc. induction l as [|tx l IH]; intros acc Hint; cbn [for_each].
  - cbn. f_equal. f_equal. lia.
  - cbn [all_int forallb] in Hint. apply andb_prop in Hint as [Htx Hl].
    fold (all_int l) in Hl.
    rewrite !total_cons. unfold balance_step, int_amount.
    destruct (tx_amount tx) as [z|f]; [|discriminate].
    destruct (String.eqb (tx_from tx) address),
             (String.eqb (tx_to tx) address);
      cbn [py_sub py_add]; rewrite (IH _ Hl); f_equal; f_equal; lia.
Qed.

Lemma get_balance_sealed (self : Blockchain) (address : string) :
  get_balance self address
  = for_each (balance_step address) (sealed_transactions self) (Int 0).
Proof.
  unfold get_balance, sealed_transactions. generalize (Int 0).
  induction (chain self) as [|b c IH]; intros acc; cbn [for_each flat_map].
  - reflexivity.
  - rewrite for_each_app.
    destruct (for_each (balance_step address) (transactions b) acc);
      [apply IH|reflexivity|reflexivity].
Qed.

(** *** Validation *)

Lemma is_chain_valid_loop_true (chain : list Block) (indices : list nat) :
  (forall i, In i indices -> (0 < i < List.length chain)%nat) ->
  is_chain_valid_loop chain indices = true <->
  (forall i current previous,
      In i indices ->
      nth_error chain i = Some current ->
      nth_error chain (i - 1) = Some previous ->
      digest_current current /\ previous_hash current = hash previous).
Proof.
  induction indices as [|i rest IH]; intros Hrange;
    cbn [is_chain_valid_loop].
  - split; [intros _ i c p []|reflexivity].
  - assert (Hi : (0 < i < List.length chain)%nat) by (apply Hrange; now left).
    destruct (nth_error chain i) as [cur|] eqn:Hcur;
      [|apply nth_error_None in Hcur; lia].
    destruct (nth_error chain (i - 1)) as [prev|] eqn:Hprev;
      [|apply nth_error_None in Hprev; lia].
    assert (Hrest : forall j, In j rest -> (0 < j < List.length chain)%nat)
      by (intros j Hj; apply Hrange; now right).
    specialize (IH Hrest).
    destruct (String.eqb (hash cur) (calculate_hash cur)) eqn:E1; cbn [negb].
    + destruct (String.eqb (previous_hash cur) (hash prev)) eqn:E2;
        cbn [negb].
      * apply String.eqb_eq in E1, E2. rewrite IH. split.
        -- intros H j c p [<-|Hj] Hc Hp.
           ++ rewrite Hcur in Hc. rewrite Hprev in Hp.
              injection Hc as <-. injection Hp as <-. now split.
           ++ now apply (H j).
        -- intros H j c p Hj. apply H. now right.
      * split; [discriminate|]. intros H.
        destruct (H i cur prev (or_introl eq_refl) Hcur Hprev) as [_ H2].
        apply String.eqb_eq in H2. congruence.
    + split; [discriminate|]. intros H.
      destruct (H i cur prev (or_introl eq_refl) Hcur Hprev) as [H1 _].
      apply String.eqb_eq in H1. congruence.
Qed.

(** What [is_chain_valid] decides: every block from index 1 on has a
    current digest and names its predecessor's stored digest. *)
Lemma is_chain_valid_spec (self : Blockchain) :
  is_chain_valid self = true <->
  (forall i current previous,
      (0 < i)%nat ->
      nth_error (chain self) i = Some current ->
      nth_error (chain self) (i - 1) = Some previous ->
      digest_current current /\ previous_hash current = hash previous).
Proof.
  unfold is_chain_valid. rewrite is_chain_valid_loop_true.
  - split.
    + intros H i c p Hi Hc Hp. apply (H i); try assumption.
      apply in_seq. assert (nth_error (chain self) i <> None) by congruence.
      apply nth_error_Some in H0. lia.
    + intros H i c p Hi. apply in_seq in Hi. apply H. lia.
  - intros i Hi. apply in_seq in Hi. lia.
Qed.

(** The genesis block enters validation through its stored digest only. *)
Lemma is_chain_valid_genesis (g g' : Block) (rest : list Block)
    (d : nat) (pool : list Transaction) (reward : Z) :
  hash g = hash g' ->
  is_chain_valid (mkBlockchain (g :: rest) d pool reward)
  = is_chain_valid (mkBlockchain (g' :: rest) d pool reward).
Proof.
  intros Hh. apply eq_true_iff_eq. rewrite !is_chain_valid_spec. cbn [chain].
  split; intros H i c p Hi Hc Hp;
    (destruct i as [|i]; [lia|]); cbn [nth_error] in Hc;
    replace (S i - 1)%nat with i in * by lia;
    (destruct i as [|i]; cbn [nth_error] in Hp;
     [injection Hp as <-|]).
  - rewrite <- Hh. now apply (H 1%nat c g).
  - now apply (H (S (S i)) c p).
  - rewrite Hh. now apply (H 1%nat c g').
  - now apply (H (S (S i)) c p).
Qed.

(** ** The concrete data, evaluated *)

Ltac evaluate := vm_compute; reflexivity.

Ltac show_zeros := apply substring_zeros; evaluate.

Ltac no_zeros := apply not_leading_zeros; evaluate.

Example hexdigest_abc :
  SHA256.hexdigest "abc"
  = "ba7816bf8f01cfea414140de5dae2223b00361a396177a9cb410ff61f20015ad".
Proof. evaluate. Qed.

Example genesis_built : create_genesis_block "1730000000.5" = genesis.
Proof. evaluate. Qed.

Example loose_block_mined :
  mine_block 5 loose_block 1 = Returned loose_block_sealed.
Proof. evaluate. Qed.

Example ledger_mined_built :
  mine_pending_transactions 3 ledger_pending "alice" "2024-10-27 03:34:20"
                            "1730000093.25"
  = Returned (block_1, ledger_mined).
Proof. evaluate. Qed.

Example reward_only_built :
  mine_pending_transactions 3 fresh_ledger "alice" "2024-10-27 03:34:20"
                            "1730000065.5"
  = Returned (block_reward_only,
              mkBlockchain [genesis; block_reward_only] 2 [] 100).
Proof. evaluate. Qed.

Example ledger_float_built :
  mine_pending_transactions
    1 (add_transaction (add_transaction ledger_rewarded float_transfer)
                       float_self_payment)
    "carol" "2024-10-27 03:37:00" "1730000235.25"
  = Returned (block_float, ledger_float).
Proof. evaluate. Qed.

Example ledger_float_plain_built :
  mine_pending_transactions
    2 (add_transaction ledger_rewarded float_transfer)
    "carol" "2024-10-27 03:37:00" "1730000283.5"
  = Returned (block_float_plain, ledger_float_plain).
Proof. evaluate. Qed.

(** ** Sealing a block *)

(** C1, as the code has it.  When [mine_block] returns, the first
    [difficulty] characters of the stored digest are ['0'], and the stored
    digest is the Hasher's output for the block's fields with the final
    nonce provided it was so on entry (as [Block.__init__] leaves it) or
    the search moved the nonce. *)
Theorem mine_block_seals (fuel : nat) (self sealed : Block) (difficulty : nat) :
  mine_block fuel self difficulty = Returned sealed ->
  leading_zeros difficulty (hash sealed) /\
  (digest_current self \/ nonce sealed <> nonce self ->
   hash sealed = calculate_hash sealed).
Proof. apply mine_block_sealed. Qed.

Lemma mine_block_seals_witness :
  leading_zeros 1 (hash loose_block_sealed) /\
  (digest_current loose_block \/ nonce loose_block_sealed <> nonce loose_block ->
   hash loose_block_sealed = calculate_hash loose_block_sealed).
Proof.
  apply (mine_block_seals 5 loose_block loose_block_sealed 1).
  vm_compute. reflexivity.
Defined.

(** C1 as stated fails on a block whose stored digest is out of date:
    the loop tests the stored digest before it computes any, so a stale
    digest that already shows the zeros is returned as it is. *)
Lemma mine_block_keeps_stale_digest :
  mine_block 0 genesis_rewritten 1 = Returned genesis_rewritten /\
  hash genesis_rewritten <> calculate_hash genesis_rewritten.
Proof.
  split; [evaluate|]. apply String.eqb_neq. evaluate.
Qed.

(** C7.  With difficulty 0 the first evaluation of the loop condition
    already ends the search, whatever the block: the call returns the
    block as it received it, without one pass through the loop body, so
    the nonce stays where it was (0 for a block built with the default). *)
Theorem mine_block_difficulty_zero (self : Block) (fuel : nat) :
  below_target self 0 = false /\
  mine_block fuel self 0 = Returned self.
Proof.
  assert (H : below_target self 0 = false).
  { apply below_target_false. intros i Hi. inversion Hi. }
  split; [assumption|]. rewrite mine_block_unfold, H. reflexivity.
Qed.

(** C9, as the code has it.  For a block whose stored digest is current
    on entry: if some nonce [n] at or above the block's nonce gives a digest
    with [difficulty] leading zeros, then [mine_block] returns (with any
    fuel from some point on), and the nonce it leaves is the least such
    nonce; it is the entry nonce when the entry digest already qualifies. *)
Theorem mine_block_least_nonce (self : Block) (difficulty : nat) (n : Z) :
  digest_current self ->
  nonce self <= n ->
  leading_zeros difficulty (digest_at self n) ->
  exists fuel sealed,
    (forall fuel', (fuel <= fuel')%nat ->
                   mine_block fuel' self difficulty = Returned sealed) /\
    nonce self <= nonce sealed <= n /\
    leading_zeros difficulty (digest_at self (nonce sealed)) /\
    (forall m, nonce self <= m < nonce sealed ->
               ~ leading_zeros difficulty (digest_at self m)) /\
    (leading_zeros difficulty (digest_at self (nonce self)) ->
     nonce sealed = nonce self) /\
    sealed = set_hash (set_nonce self (nonce sealed))
                      (digest_at self (nonce sealed)).
Proof.
  intros Hcur Hn Hz.
  destruct (mine_block_least (Z.to_nat (n - nonce self)) self difficulty Hcur)
    as (sealed & Hm & Hr & Heq & Hs & Hmin).
  { now replace (nonce self + Z.of_nat (Z.to_nat (n - nonce self)))
      with n by lia. }
  exists (Z.to_nat (n - nonce self)), sealed.
  split; [intros fuel' Hf; now apply (mine_block_more_fuel _ _ _ _ _ Hm)|].
  split; [lia|]. split; [assumption|]. split; [assumption|].
  split; [|assumption].
  intros H0. destruct (Z.eq_dec (nonce sealed) (nonce self)) as [|Hne];
    [assumption|].
  exfalso. apply (Hmin (nonce self)); [lia|assumption].
Qed.

Lemma mine_block_least_nonce_witness :
  exists fuel sealed,
    (forall fuel', (fuel <= fuel')%nat ->
                   mine_block fuel' loose_block 1 = Returned sealed) /\
    nonce loose_block <= nonce sealed <= 5 /\
    leading_zeros 1 (digest_at loose_block (nonce sealed)) /\
    (forall m, nonce loose_block <= m < nonce sealed ->
               ~ leading_zeros 1 (digest_at loose_block m)) /\
    (leading_zeros 1 (digest_at loose_block (nonce loose_block)) ->
     nonce sealed = nonce loose_block) /\
    sealed = set_hash (set_nonce loose_block (nonce sealed))
                      (digest_at loose_block (nonce sealed)).
Proof.
  apply (mine_block_least_nonce loose_block 1 5).
  - apply Block_init_current.
  - vm_compute. discriminate.
  - apply substring_zeros. vm_compute. reflexivity.
Defined.

(** C9 as stated fails on a block whose stored digest is out of date:
    nonce 2 is the first to seal the rewritten genesis block at difficulty
    1, yet the call returns with the nonce still 0, whose digest does not
    qualify. *)
Lemma mine_block_stale_not_least :
  nonce genesis_rewritten <= 2 /\
  leading_zeros 1 (digest_at genesis_rewritten 2) /\
  mine_block 0 genesis_rewritten 1 = Returned genesis_rewritten /\
  ~ leading_zeros 1 (digest_at genesis_rewritten (nonce genesis_rewritten)).
Proof.
  split; [vm_compute; discriminate|].
  split; [show_zeros|]. split; [evaluate|]. no_zeros.
Qed.

(** ** Admission and mining on the ledger *)

(** C8.  [add_transaction] puts the transaction at the end of the pending
    pool whatever the transaction and whatever the ledger (no balance is
    consulted, nothing is rejected), and leaves the chain, the difficulty
    and the mining reward as they were. *)
Theorem add_transaction_appends (self : Blockchain) (transaction : Transaction) :
  pending_transactions (add_transaction self transaction)
  = pending_transactions self ++ [transaction] /\
  chain (add_transaction self transaction) = chain self /\
  difficulty (add_transaction self transaction) = difficulty self /\
  mining_reward (add_transaction self transaction) = mining_reward self.
Proof. repeat split. Qed.

(** C4.  Whenever [mine_pending_transactions] returns, the chain has
    gained exactly the returned block at its end; that block's index is
    the former chain length, its [previous_hash] the stored digest of the
    former last block, its transactions the former pending pool in order
    followed by the reward transaction (from "SYSTEM" to the given address,
    for the mining reward); the pending pool is empty, difficulty and
    reward are untouched.  And the call does return, with enough fuel, as
    soon as the chain has a last block and some nonce seals the new one. *)
Theorem mine_pending_transactions_appends (self : Blockchain)
    (address now_text : string) (now : pyfloat) :
  (forall fuel block self',
      mine_pending_transactions fuel self address now_text now
        = Returned (block, self') ->
      chain self' = chain self ++ [block] /\
      index block = Z.of_nat (List.length (chain self)) /\
      (exists front latest,
          chain self = front ++ [latest] /\
          previous_hash block = hash latest) /\
      transactions block
        = pending_transactions self
            ++ [mkTransaction "SYSTEM" address (Int (mining_reward self))
                              now_text "mining_reward"] /\
      pending_transactions self' = [] /\
      difficulty self' = difficulty self /\
      mining_reward self' = mining_reward self) /\
  (forall front latest n,
      chain self = front ++ [latest] ->
      0 <= n ->
      leading_zeros (difficulty self)
        (digest_at (candidate_block self address now_text now latest) n) ->
      exists fuel block self',
        mine_pending_transactions fuel self address now_text now
          = Returned (block, self')).
Proof.
  split.
  - intros fuel block self'. apply mine_pending_transactions_shape.
  - intros front latest n. apply mine_pending_transactions_returns.
Qed.

Lemma mine_pending_transactions_appends_witness :
  (chain ledger_mined = chain ledger_pending ++ [block_1] /\
   index block_1 = Z.of_nat (List.length (chain ledger_pending)) /\
   (exists front latest,
       chain ledger_pending = front ++ [latest] /\
       previous_hash block_1 = hash latest) /\
   transactions block_1
     = pending_transactions ledger_pending
         ++ [mkTransaction "SYSTEM" "alice" (Int (mining_reward ledger_pending))
                           "2024-10-27 03:34:20" "mining_reward"] /\
   pending_transactions ledger_mined = [] /\
   difficulty ledger_mined = difficulty ledger_pending /\
   mining_reward ledger_mined = mining_reward ledger_pending) /\
  (exists fuel block self',
      mine_pending_transactions fuel ledger_pending "alice"
        "2024-10-27 03:34:20" "1730000093.25" = Returned (block, self')).
Proof.
  destruct (mine_pending_transactions_appends ledger_pending "alice"
              "2024-10-27 03:34:20" "1730000093.25") as [H1 H2].
  split.
  - apply (H1 3%nat block_1 ledger_mined). vm_compute. reflexivity.
  - apply (H2 [] genesis 3).
    + vm_compute. reflexivity.
    + lia.
    + apply substring_zeros. vm_compute. reflexivity.
Defined.

(** C6.  With nothing pending, a returning [mine_pending_transactions]
    gives a block holding exactly one transaction, the mining reward; and
    the call does return, with enough fuel, as soon as the chain has a
    last block and some nonce seals the new one: an empty pool is no
    obstacle. *)
Theorem mine_pending_transactions_empty_pool (self : Blockchain)
    (address now_text : string) (now : pyfloat) :
  pending_transactions self = [] ->
  (forall fuel block self',
      mine_pending_transactions fuel self address now_text now
        = Returned (block, self') ->
      exists tx,
        transactions block = [tx] /\
        tx_type tx = "mining_reward" /\
        tx_from tx = "SYSTEM" /\
        tx_to tx = address /\
        tx_amount tx = Int (mining_reward self)) /\
  (forall front latest n,
      chain self = front ++ [latest] ->
      0 <= n ->
      leading_zeros (difficulty self)
        (digest_at (candidate_block self address now_text now latest) n) ->
      exists fuel block self',
        mine_pending_transactions fuel self address now_text now
          = Returned (block, self')).
Proof.
  intros Hpool. split.
  - intros fuel block self' H.
    apply mine_pending_transactions_shape in H as (_ & _ & _ & Ht & _).
    rewrite Hpool in Ht. exists (reward_transaction self address now_text).
    repeat split. assumption.
  - intros front latest n. apply mine_pending_transactions_returns.
Qed.

Lemma mine_pending_transactions_empty_pool_witness :
  (exists tx,
      transactions block_reward_only = [tx] /\
      tx_type tx = "mining_reward" /\
      tx_from tx = "SYSTEM" /\
      tx_to tx = "alice" /\
      tx_amount tx = Int (mining_reward fresh_ledger)) /\
  (exists fuel block self',
      mine_pending_transactions fuel fresh_ledger "alice"
        "2024-10-27 03:34:20" "1730000065.5" = Returned (block, self')).
Proof.
  destruct (mine_pending_transactions_empty_pool fresh_ledger "alice"
              "2024-10-27 03:34:20" "1730000065.5" eq_refl) as [H1 H2].
  split.
  - apply (H1 3%nat block_reward_only
              (mkBlockchain [genesis; block_reward_only] 2 [] 100)).
    vm_compute. reflexivity.
  - apply (H2 [] genesis 3).
    + vm_compute. reflexivity.
    + lia.
    + apply substring_zeros. vm_compute. reflexivity.
Defined.

(** C5.  In every ledger reachable from [Blockchain()] through
    [add_transaction] and [mine_pending_transactions], each block after
    the first names the stored digest of the block before it, and neither
    operation makes the chain shorter. *)
Theorem reachable_chain_linked_and_growing (self : Blockchain) :
  reachable self ->
  linked (chain self) /\
  (forall self', step self self' ->
                 (List.length (chain self) <= List.length (chain self'))%nat).
Proof.
  intros Hr. split; [now apply reachable_linked|].
  intros self' Hs.
  apply step_chain in Hs as [->|(front & latest & block & _ & -> & _)].
  - lia.
  - rewrite length_app. lia.
Qed.

Lemma reachable_chain_linked_and_growing_witness :
  linked (chain ledger_mined) /\
  (forall self', step ledger_mined self' ->
                 (List.length (chain ledger_mined)
                  <= List.length (chain self'))%nat).
Proof.
  apply (reachable_chain_linked_and_growing ledger_mined).
  apply (reachable_step ledger_pending).
  - apply (reachable_step fresh_ledger).
    + apply reachable_init.
    + apply step_add.
  - apply (step_mine ledger_pending 3 "alice" "2024-10-27 03:34:20"
                     "1730000093.25" block_1).
    vm_compute. reflexivity.
Defined.

(** ** Balances *)

(** C3, as the code has it.  Whatever the amounts, [get_balance] of an
    address is the running total over the sealed transactions in chain
    order, each amount subtracted when the address is the sender and then
    added when it is the recipient, in Python's arithmetic; the pending
    pool has no part in it.  When the sealed amounts are all [int]s, this
    is what the sealed transactions pay to the address minus what they
    take from it, and a sealed transaction from the address to itself
    leaves the balance where it would be without it. *)
Theorem get_balance_received_minus_sent (self : Blockchain) (address : string) :
  get_balance self address
  = for_each (balance_step address) (sealed_transactions self) (Int 0) /\
  (forall pool,
      get_balance (mkBlockchain (chain self) (difficulty self) pool
                                (mining_reward self)) address
      = get_balance self address) /\
  (all_int (sealed_transactions self) = true ->
   get_balance self address
   = Returned (Int (received self address - sent self address)) /\
   (forall self' before tx after,
       sealed_transactions self = before ++ tx :: after ->
       sealed_transactions self' = before ++ after ->
       tx_from tx = address ->
       tx_to tx = address ->
       get_balance self address = get_balance self' address)).
Proof.
  split; [apply get_balance_sealed|].
  split; [reflexivity|]. intros Hint. split.
  - rewrite get_balance_sealed, fold_balance_step by assumption. reflexivity.
  - intros self' before tx after Hs Hs' Hf Ht.
    assert (Hint' : all_int (sealed_transactions self') = true).
    { rewrite Hs in Hint. rewrite Hs'. unfold all_int in *.
      rewrite forallb_app in *. cbn [forallb] in Hint.
      apply andb_prop in Hint as [H1 H2]. apply andb_prop in H2 as [_ H2].
      now rewrite H1, H2. }
    rewrite !get_balance_sealed, !fold_balance_step by assumption.
    rewrite Hs, Hs', !total_app, !total_cons, Hf, Ht, String.eqb_refl.
    f_equal. f_equal. lia.
Qed.

Lemma get_balance_received_minus_sent_witness :
  get_balance ledger_self_payment "alice"
  = Returned (Int (received ledger_self_payment "alice"
                   - sent ledger_self_payment "alice")) /\
  get_balance ledger_self_payment "alice" = get_balance ledger_mined "alice".
Proof.
  destruct (proj2 (proj2 (get_balance_received_minus_sent
                            ledger_self_payment "alice"))
              eq_refl) as [H1 H2].
  split; [exact H1|].
  apply (H2 ledger_mined [transfer] self_payment [reward]); reflexivity.
Defined.

(** C3 as stated fails once an amount is a [float], as every amount the
    entry form submits is.  Alice is paid the reward of 100, pays bob 0.2
    and pays herself 16.1: her balance is 99.79999999999998, where it is
    99.8 without the payment to herself, and where what she received less
    what she sent, each added up with Python's [+], is 99.8 too. *)
Lemma get_balance_float_self_payment :
  sealed_transactions ledger_float
  = [reward; float_transfer] ++ float_self_payment :: [reward_carol] /\
  sealed_transactions ledger_float_plain
  = [reward; float_transfer] ++ [reward_carol] /\
  tx_from float_self_payment = "alice" /\
  tx_to float_self_payment = "alice" /\
  get_balance ledger_float "alice" = Returned (Float 99.79999999999998) /\
  get_balance ledger_float_plain "alice" = Returned (Float 99.8) /\
  get_balance ledger_float "alice" <> get_balance ledger_float_plain "alice" /\
  py_received ledger_float "alice" = Returned (Float 116.1) /\
  py_sent ledger_float "alice" = Returned (Float 16.3) /\
  py_sub (Float 116.1) (Float 16.3) = Returned (Float 99.8).
Proof.
  assert (H1 : get_balance ledger_float "alice"
               = Returned (Float 99.79999999999998)) by evaluate.
  assert (H2 : get_balance ledger_float_plain "alice"
               = Returned (Float 99.8)) by evaluate.
  repeat split; try assumption; try evaluate.
  rewrite H1, H2. intros H.
  apply (f_equal (fun o => match o with
                           | Returned (Float x) => PrimFloat.eqb x 99.8
                           | _ => true
                           end)) in H.
  vm_compute in H. discriminate H.
Qed.

Example get_balance_ledger_mined :
  get_balance ledger_mined "alice" = Returned (Int 50) /\
  get_balance ledger_mined "bob" = Returned (Int 50) /\
  get_balance ledger_pending "bob" = Returned (Int 0).
Proof. repeat split. Qed.

(** ** Validation *)

(** C10.  A ledger whose chain is a single block is valid whatever that
    block's fields and stored digest are: the loop has no index to
    visit, and no digest is recomputed. *)
Theorem is_chain_valid_single_block (genesis_block : Block) (d : nat)
    (pool : list Transaction) (reward_amount : Z) :
  is_chain_valid (mkBlockchain [genesis_block] d pool reward_amount) = true.
Proof. reflexivity. Qed.

(** C2 does not hold of the code.  The ledger mined above, with the
    genesis block's transactions overwritten afterwards, passes
    [is_chain_valid] although the genesis block's stored digest is not
    the digest of its fields: validation starts at index 1 and reads the
    genesis block's stored digest only. *)
Theorem is_chain_valid_misses_genesis :
  nth_error (chain ledger_rewritten) 0 = Some genesis_rewritten /\
  hash genesis_rewritten <> calculate_hash genesis_rewritten /\
  is_chain_valid ledger_rewritten = true /\
  get_balance ledger_rewritten "mallory" = Returned (Int 5000).
Proof.
  split; [reflexivity|]. split; [apply String.eqb_neq; evaluate|].
  split; evaluate.
Qed.

(** * Further properties of the code *)

(** ** The digest *)

Lemma get_length_None (s : string) : String.get (String.length s) s = None.
Proof. induction s as [|c s IH]; [reflexivity|exact IH]. Qed.

Lemma leading_zeros_length (d : nat) (s : string) :
  leading_zeros d s -> (d <= String.length s)%nat.
Proof.
  intros H. destruct (Nat.le_gt_cases d (String.length s)) as [|Hlt];
    [assumption|].
  specialize (H _ Hlt). rewrite get_length_None in H. discriminate.
Qed.

Lemma leading_zeros_le (d d' : nat) (s : string) :
  (d' <= d)%nat -> leading_zeros d s -> leading_zeros d' s.
Proof. intros Hle H i Hi. apply H. lia. Qed.

Lemma compress_length (h block : list Z) :
  List.length h = 8%nat -> List.length (SHA256.compress h block) = 8%nat.
Proof.
  intros H. unfold SHA256.compress, SHA256.list_of_vars.
  rewrite length_map, length_combine, H. reflexivity.
Qed.

Lemma blocks_length (n : nat) (ws h : list Z) :
  List.length h = 8%nat -> List.length (SHA256.blocks n ws h) = 8%nat.
Proof.
  revert ws h. induction n as [|n IH]; intros ws h H; cbn [SHA256.blocks];
    [assumption|].
  apply IH, compress_length, H.
Qed.

Lemma be_bytes_length (n : nat) (x : Z) :
  List.length (SHA256.be_bytes n x) = n.
Proof.
  unfold SHA256.be_bytes. now rewrite length_map, length_rev, length_seq.
Qed.

Lemma be_bytes_range (n : nat) (x : Z) :
  Forall (fun b => 0 <= b < 256) (SHA256.be_bytes n x).
Proof.
  unfold SHA256.be_bytes. apply Forall_map, Forall_forall.
  intros i _. apply Z.mod_pos_bound. lia.
Qed.

Lemma digest_bytes (msg : list Z) :
  let bytes := flat_map (SHA256.be_bytes 4) (SHA256.digest msg) in
  List.length bytes = 32%nat /\ Forall (fun b => 0 <= b < 256) bytes.
Proof.
  assert (Hl : List.length (SHA256.digest msg) = 8%nat)
    by (apply blocks_length; reflexivity).
  cbv zeta. generalize dependent (SHA256.digest msg). intros l Hl.
  do 9 (destruct l as [|? l]; try discriminate Hl).
  cbn [flat_map]. split.
  - rewrite !length_app, !be_bytes_length. reflexivity.
  - repeat (apply Forall_app; split; try apply be_bytes_range).
    constructor.
Qed.

Lemma hex_digit_lowercase (x : Z) :
  0 <= x < 16 ->
  In (SHA256.hex_digit x) (list_ascii_of_string "0123456789abcdef").
Proof.
  intros H.
  assert (Hx : In x (map Z.of_nat (seq 0 16))).
  { apply in_map_iff. exists (Z.to_nat x). split; [lia|].
    apply in_seq. lia. }
  cbn in Hx.
  repeat (destruct Hx as [<-|Hx]; [vm_compute; tauto|]).
  destruct Hx.
Qed.

Lemma hex_of_bytes_length (bs : list Z) :
  String.length (SHA256.hex_of_bytes bs) = (2 * List.length bs)%nat.
Proof.
  induction bs as [|b bs IH]; [reflexivity|].
  cbn [SHA256.hex_of_bytes String.length List.length]. rewrite IH. lia.
Qed.

Lemma hex_of_bytes_lowercase (bs : list Z) :
  Forall (fun b => 0 <= b < 256) bs ->
  lowercase_hex (SHA256.hex_of_bytes bs).
Proof.
  induction 1 as [|b bs Hb _ IH]; intros i c Hg; [discriminate|].
  cbn [SHA256.hex_of_bytes] in Hg.
  destruct i as [|[|i]]; cbn [String.get] in Hg.
  - injection Hg as <-. apply hex_digit_lowercase.
    split; [apply Z.div_pos; lia|apply Z.div_lt_upper_bound; lia].
  - injection Hg as <-. apply hex_digit_lowercase.
    apply Z.mod_pos_bound. lia.
  - now apply (IH i).
Qed.

Lemma hexdigest_length (s : string) :
  String.length (SHA256.hexdigest s) = 64%nat.
Proof.
  unfold SHA256.hexdigest. rewrite hex_of_bytes_length.
  destruct (digest_bytes (SHA256.encode s)) as [-> _]. reflexivity.
Qed.

(** X1.  Whatever the block, the digest the Hasher returns has exactly 64
    characters, each one of [0123456789abcdef]. *)
Theorem calculate_hash_hex64 (b : Block) :
  String.length (calculate_hash b) = 64%nat /\
  lowercase_hex (calculate_hash b).
Proof.
  split; [apply hexdigest_length|].
  unfold calculate_hash, SHA256.hexdigest.
  apply hex_of_bytes_lowercase, digest_bytes.
Qed.

(** ** More on the mining loop *)

(** X2.  A returning [mine_block] has changed nothing but the nonce and
    the stored digest, and has not lowered the nonce. *)
Theorem mine_block_touches_nonce_and_digest_only
    (fuel : nat) (self sealed : Block) (difficulty : nat) :
  mine_block fuel self difficulty = Returned sealed ->
  index sealed = index self /\
  transactions sealed = transactions self /\
  timestamp sealed = timestamp self /\
  previous_hash sealed = previous_hash self /\
  nonce self <= nonce sealed.
Proof. apply mine_block_frame. Qed.

Lemma mine_block_touches_nonce_and_digest_only_witness :
  index loose_block_sealed = index loose_block /\
  transactions loose_block_sealed = transactions loose_block /\
  timestamp loose_block_sealed = timestamp loose_block /\
  previous_hash loose_block_sealed = previous_hash loose_block /\
  nonce loose_block <= nonce loose_block_sealed.
Proof.
  apply (mine_block_touches_nonce_and_digest_only 5 loose_block
           loose_block_sealed 1).
  vm_compute. reflexivity.
Defined.

(** X3.  Mining a block that [mine_block] has already returned, at the
    same or a lower difficulty, returns it at once and unchanged. *)
Theorem mine_block_again_is_idle
    (fuel fuel' : nat) (self sealed : Block) (difficulty difficulty' : nat) :
  mine_block fuel self difficulty = Returned sealed ->
  (difficulty' <= difficulty)%nat ->
  mine_block fuel' sealed difficulty' = Returned sealed.
Proof.
  intros H Hle. apply mine_block_sealed in H as [Hz _].
  apply (leading_zeros_le _ _ _ Hle), below_target_false in Hz.
  rewrite mine_block_unfold, Hz. reflexivity.
Qed.

Lemma mine_block_again_is_idle_witness :
  mine_block 0 loose_block_sealed 1 = Returned loose_block_sealed.
Proof.
  apply (mine_block_again_is_idle 5 0 loose_block loose_block_sealed 1 1).
  - vm_compute. reflexivity.
  - lia.
Defined.

(** X4.  A digest has 64 characters, so no nonce satisfies a difficulty
    above 64: started on a block whose stored digest is current,
    [mine_block] is still running whatever fuel it is given. *)
Theorem mine_block_beyond_64 (fuel : nat) (self : Block) (difficulty : nat) :
  (64 < difficulty)%nat ->
  digest_current self ->
  mine_block fuel self difficulty = Unfinished.
Proof.
  intros Hd. revert self. induction fuel as [|fuel IH]; intros self Hcur;
    rewrite mine_block_unfold;
    (assert (Hb : below_target self difficulty = true);
     [apply below_target_true; intros Hz;
      apply leading_zeros_length in Hz; unfold digest_current in Hcur;
      rewrite Hcur in Hz; unfold calculate_hash in Hz;
      rewrite hexdigest_length in Hz; lia|rewrite Hb]).
  - reflexivity.
  - apply IH, try_next_nonce_current.
Qed.

Lemma mine_block_beyond_64_witness :
  mine_block 2 loose_block 65 = Unfinished.
Proof.
  apply (mine_block_beyond_64 2 loose_block 65).
  - lia.
  - apply Block_init_current.
Defined.

(** ** More on the ledger *)

(** X5.  [get_latest_block] returns the last block of the chain, and
    raises [IndexError] exactly when the chain is empty. *)
Theorem get_latest_block_last_or_IndexError (self : Blockchain) :
  (forall b, get_latest_block self = Returned b <->
             exists front, chain self = front ++ [b]) /\
  (get_latest_block self = Raised IndexError <-> chain self = []).
Proof.
  split; [intros b; apply get_latest_block_Returned|].
  apply get_latest_block_Raised.
Qed.

(** What a returning call knows of the block it sealed. *)
Lemma mine_pending_transactions_seal (fuel : nat) (self : Blockchain)
    (address now_text : string) (now : pyfloat)
    (block : Block) (self' : Blockchain) :
  mine_pending_transactions fuel self address now_text now
    = Returned (block, self') ->
  digest_current block /\ leading_zeros (difficulty self) (hash block).
Proof.
  intros H.
  apply mine_pending_transactions_Returned in H as (latest & _ & Hm & _).
  apply mine_block_sealed in Hm as [Hz Hc]. split; [|assumption].
  apply Hc. left. apply candidate_block_current.
Qed.

Lemma step_in_place (self self' : Blockchain) :
  ledger_in_place self -> step self self' -> ledger_in_place self'.
Proof.
  intros (Hd & Hr & Hne & Hb) [tx|fuel address now_text now block self'' H].
  - split; [|split; [|split]]; assumption.
  - pose proof (mine_pending_transactions_seal _ _ _ _ _ _ _ H) as [Hc Hz].
    apply mine_pending_transactions_shape in H
      as (Hch & Hi & _ & Ht & _ & Hd' & Hr').
    rewrite Hd in Hz.
    split; [congruence|]. split; [congruence|]. rewrite Hch. split.
    + now destruct (chain self).
    + intros i b H.
      destruct (Nat.lt_trichotomy i (List.length (chain self)))
        as [Hlt|[->|Hgt]].
      * rewrite nth_error_app1 in H by assumption. now apply Hb.
      * rewrite nth_error_app2, Nat.sub_diag in H by lia.
        injection H as <-.
        split; [assumption|]. split; [assumption|].
        destruct (List.length (chain self)) eqn:Hlen;
          [now destruct (chain self)|].
        split; [assumption|].
        exists (pending_transactions self),
               (reward_transaction self address now_text).
        split; [assumption|]. repeat split.
        cbn [reward_transaction tx_amount]. now rewrite Hr.
      * assert (nth_error (chain self ++ [block]) i = None)
          by (apply nth_error_None; rewrite length_app; cbn; lia).
        congruence.
Qed.

Lemma reachable_in_place (self : Blockchain) :
  reachable self -> ledger_in_place self.
Proof.
  induction 1 as [now|self self' _ IH Hs].
  - split; [reflexivity|]. split; [reflexivity|]. split; [discriminate|].
    intros i b H. destruct i as [|[|i]]; cbn in H; try discriminate.
    injection H as <-. repeat split.
  - now apply (step_in_place self).
Qed.

(** X7.  In every ledger built from [Blockchain()] by [add_transaction]
    and [mine_pending_transactions], the difficulty is still 2 and the
    reward still 100, the chain is not empty, every block's [index] is its
    position in the chain, and the first block is the genesis block as
    created: no transactions, previous digest "0", nonce 0. *)
Theorem reachable_chain_positions (self : Blockchain) :
  reachable self ->
  difficulty self = 2%nat /\
  mining_reward self = 100 /\
  (exists genesis_block rest,
      chain self = genesis_block :: rest /\
      transactions genesis_block = [] /\
      previous_hash genesis_block = "0" /\
      nonce genesis_block = 0) /\
  (forall i b, nth_error (chain self) i = Some b -> index b = Z.of_nat i).
Proof.
  intros H. apply reachable_in_place in H as (Hd & Hr & Hne & Hb).
  repeat split; try assumption.
  - destruct (chain self) as [|g rest]; [contradiction|].
    exists g, rest. split; [reflexivity|].
    destruct (Hb 0%nat g eq_refl) as (_ & _ & Hg). exact Hg.
  - intros i b Hi. now destruct (Hb i b Hi).
Qed.

Lemma reachable_ledger_mined : reachable ledger_mined.
Proof.
  apply (reachable_step ledger_pending).
  - apply (reachable_step fresh_ledger).
    + apply reachable_init.
    + apply step_add.
  - apply (step_mine ledger_pending 3 "alice" "2024-10-27 03:34:20"
                     "1730000093.25" block_1).
    vm_compute. reflexivity.
Defined.

Lemma reachable_chain_positions_witness :
  difficulty ledger_mined = 2%nat /\
  mining_reward ledger_mined = 100 /\
  (exists genesis_block rest,
      chain ledger_mined = genesis_block :: rest /\
      transactions genesis_block = [] /\
      previous_hash genesis_block = "0" /\
      nonce genesis_block = 0) /\
  (forall i b, nth_error (chain ledger_mined) i = Some b ->
               index b = Z.of_nat i).
Proof.
  apply (reachable_chain_positions ledger_mined), reachable_ledger_mined.
Defined.

(** X8.  In every such ledger each block's stored digest is the digest of
    its fields, and every block after the genesis block carries the proof
    of work: its digest starts with two zeros.  (The genesis block is
    never mined.) *)
Theorem reachable_blocks_sealed (self : Blockchain) :
  reachable self ->
  forall i b,
    nth_error (chain self) i = Some b ->
    hash b = calculate_hash b /\
    ((0 < i)%nat -> leading_zeros 2 (hash b)).
Proof.
  intros H i b Hi. apply reachable_in_place in H as (_ & _ & _ & Hb).
  destruct (Hb i b Hi) as (_ & Hc & Hrest). split; [assumption|].
  intros Hpos. destruct i; [lia|]. now destruct Hrest.
Qed.

Lemma reachable_blocks_sealed_witness :
  hash block_1 = calculate_hash block_1 /\
  ((0 < 1)%nat -> leading_zeros 2 (hash block_1)).
Proof.
  apply (reachable_blocks_sealed ledger_mined reachable_ledger_mined 1 block_1).
  reflexivity.
Defined.

(** X9.  In every such ledger each block after the genesis block ends
    with a reward transaction: from "SYSTEM", of 100, of type
    "mining_reward". *)
Theorem reachable_blocks_end_with_reward (self : Blockchain) :
  reachable self ->
  forall i b,
    (0 < i)%nat ->
    nth_error (chain self) i = Some b ->
    exists pool tx,
      transactions b = pool ++ [tx] /\
      tx_from tx = "SYSTEM" /\ tx_amount tx = Int 100 /\
      tx_type tx = "mining_reward".
Proof.
  intros H i b Hpos Hi. apply reachable_in_place in H as (_ & _ & _ & Hb).
  destruct (Hb i b Hi) as (_ & _ & Hrest). destruct i; [lia|].
  destruct Hrest as (_ & pool & tx & Ht & Hr). now exists pool, tx.
Qed.

Lemma reachable_blocks_end_with_reward_witness :
  exists pool tx,
    transactions block_1 = pool ++ [tx] /\
    tx_from tx = "SYSTEM" /\ tx_amount tx = Int 100 /\
    tx_type tx = "mining_reward".
Proof.
  apply (reachable_blocks_end_with_reward ledger_mined reachable_ledger_mined
           1 block_1).
  - lia.
  - reflexivity.
Defined.

(** X10.  Every ledger built from [Blockchain()] by [add_transaction] and
    [mine_pending_transactions] passes [is_chain_valid]. *)
Theorem reachable_is_chain_valid (self : Blockchain) :
  reachable self -> is_chain_valid self = true.
Proof.
  intros H. apply is_chain_valid_spec. intros i cur prev Hi Hc Hp. split.
  - apply reachable_in_place in H as (_ & _ & _ & Hb).
    now destruct (Hb i cur Hc) as (_ & Hcur & _).
  - now apply (reachable_linked self H i).
Qed.

Lemma reachable_is_chain_valid_witness : is_chain_valid ledger_mined = true.
Proof.
  apply (reachable_is_chain_valid ledger_mined), reachable_ledger_mined.
Defined.

(** *** The ledger as a log *)

Lemma sealed_transactions_snoc (c : list Block) (b : Block)
    (d : nat) (pool : list Transaction) (r : Z) :
  sealed_transactions (mkBlockchain (c ++ [b]) d pool r)
  = flat_map transactions c ++ transactions b.
Proof.
  unfold sealed_transactions. cbn [chain].
  rewrite flat_map_app. cbn [flat_map]. now rewrite app_nil_r.
Qed.

Lemma mine_pending_transactions_sealed (fuel : nat) (self : Blockchain)
    (address now_text : string) (now : pyfloat)
    (block : Block) (self' : Blockchain) :
  mine_pending_transactions fuel self address now_text now
    = Returned (block, self') ->
  sealed_transactions self'
  = sealed_transactions self ++ pending_transactions self
      ++ [reward_transaction self address now_text] /\
  pending_transactions self' = [].
Proof.
  intros H. pose proof H as H'.
  apply mine_pending_transactions_shape in H' as (_ & _ & _ & Ht & _).
  apply mine_pending_transactions_Returned in H as (latest & _ & _ & ->).
  split; [|reflexivity]. rewrite sealed_transactions_snoc, Ht. reflexivity.
Qed.

(** X11.  The ledger is an append-only log: each [add_transaction] and
    each returning [mine_pending_transactions] adds exactly one
    transaction at the end of what the ledger holds (sealed transactions
    followed by pending ones), and drops or reorders none. *)
Theorem step_appends_one_transaction (self self' : Blockchain) :
  step self self' ->
  exists tx, ledger_history self' = ledger_history self ++ [tx].
Proof.
  intros [tx|fuel address now_text now block self'' H].
  - exists tx. unfold ledger_history, add_transaction, sealed_transactions.
    cbn [chain pending_transactions]. now rewrite app_assoc.
  - apply mine_pending_transactions_sealed in H as [Hs Hp].
    exists (reward_transaction self address now_text).
    unfold ledger_history. rewrite Hs, Hp, app_nil_r, app_assoc.
    reflexivity.
Qed.

Lemma step_appends_one_transaction_witness :
  exists tx, ledger_history ledger_mined = ledger_history ledger_pending ++ [tx].
Proof.
  apply (step_appends_one_transaction ledger_pending ledger_mined).
  apply (step_mine ledger_pending 3 "alice" "2024-10-27 03:34:20"
                   "1730000093.25" block_1).
  vm_compute. reflexivity.
Defined.

Lemma fold_add_transaction (txs : list Transaction) (self : Blockchain) :
  fold_left add_transaction txs self
  = mkBlockchain (chain self) (difficulty self)
                 (pending_transactions self ++ txs) (mining_reward self).
Proof.
  revert self. induction txs as [|tx txs IH]; intros self; cbn [fold_left].
  - rewrite app_nil_r. now destruct self.
  - rewrite IH. cbn [add_transaction chain difficulty pending_transactions
                     mining_reward]. now rewrite <- app_assoc.
Qed.

(** X12.  Transactions submitted one after the other and then mined are
    sealed in the order of submission, after those already pending and
    before the reward. *)
Theorem add_transactions_then_mine (fuel : nat) (self : Blockchain)
    (txs : list Transaction) (address now_text : string) (now : pyfloat)
    (block : Block) (self' : Blockchain) :
  mine_pending_transactions fuel (fold_left add_transaction txs self)
                            address now_text now
    = Returned (block, self') ->
  transactions block
  = pending_transactions self ++ txs
      ++ [mkTransaction "SYSTEM" address (Int (mining_reward self)) now_text
                        "mining_reward"] /\
  chain self' = chain self ++ [block].
Proof.
  intros H. apply mine_pending_transactions_shape in H
    as (Hc & _ & _ & Ht & _).
  rewrite fold_add_transaction in Hc, Ht.
  cbn [chain pending_transactions] in Hc, Ht. split; [|assumption].
  rewrite Ht, <- app_assoc. reflexivity.
Qed.

Lemma add_transactions_then_mine_witness :
  transactions block_1
  = pending_transactions fresh_ledger ++ [transfer]
      ++ [mkTransaction "SYSTEM" "alice" (Int (mining_reward fresh_ledger))
                        "2024-10-27 03:34:20" "mining_reward"] /\
  chain ledger_mined = chain fresh_ledger ++ [block_1].
Proof.
  apply (add_transactions_then_mine 3 fresh_ledger [transfer] "alice"
           "2024-10-27 03:34:20" "1730000093.25" block_1 ledger_mined).
  vm_compute. reflexivity.
Defined.

(** ** More on balances *)

Lemma get_balance_totals (self : Blockchain) (address : string) :
  all_int (sealed_transactions self) = true ->
  get_balance self address
  = Returned
      (Int (total (fun tx => String.eqb (tx_to tx) address)
                  (sealed_transactions self)
            - total (fun tx => String.eqb (tx_from tx) address)
                    (sealed_transactions self))).
Proof.
  intros H. rewrite get_balance_sealed, fold_balance_step by assumption.
  reflexivity.
Qed.

Lemma total_none (p : Transaction -> bool) (l : list Transaction) :
  (forall tx, In tx l -> p tx = false) -> total p l = 0.
Proof.
  induction l as [|tx l IH]; intros H; [reflexivity|].
  rewrite total_cons, (H tx (or_introl eq_refl)), IH; [reflexivity|].
  intros tx' Hin. apply H. now right.
Qed.

Lemma all_int_app (l1 l2 : list Transaction) :
  all_int (l1 ++ l2) = all_int l1 && all_int l2.
Proof. apply forallb_app. Qed.

(** X13.  After a returning [mine_pending_transactions] the balance of an
    address is what the balance loop gives when it goes on from the old
    balance through the pending pool and then the reward transaction,
    in Python's arithmetic.  When the sealed and the pending amounts are
    all [int]s this is the old balance, plus what the pool paid to the
    address, minus what it took from it, plus the reward for the rewarded
    address, minus the reward for "SYSTEM". *)
Theorem get_balance_after_mining (fuel : nat) (self : Blockchain)
    (address now_text : string) (now : pyfloat)
    (block : Block) (self' : Blockchain) (a : string) :
  mine_pending_transactions fuel self address now_text now
    = Returned (block, self') ->
  get_balance self' a
  = match get_balance self a with
    | Returned balance =>
        for_each (balance_step a)
                 (pending_transactions self
                    ++ [mkTransaction "SYSTEM" address
                                      (Int (mining_reward self)) now_text
                                      "mining_reward"])
                 balance
    | Raised e => Raised e
    | Unfinished => Unfinished
    end /\
  (all_int (sealed_transactions self) = true ->
   all_int (pending_transactions self) = true ->
   exists balance,
     get_balance self a = Returned (Int balance) /\
     get_balance self' a
     = Returned
         (Int (balance
               + total (fun tx => String.eqb (tx_to tx) a)
                       (pending_transactions self)
               - total (fun tx => String.eqb (tx_from tx) a)
                       (pending_transactions self)
               + (if String.eqb address a then mining_reward self else 0)
               - (if String.eqb "SYSTEM" a then mining_reward self else 0)))).
Proof.
  intros H. apply mine_pending_transactions_sealed in H as [Hs _]. split.
  - rewrite !get_balance_sealed, Hs, for_each_app. reflexivity.
  - intros Hint Hpool. eexists. split; [now apply get_balance_totals|].
    rewrite get_balance_totals.
    + rewrite Hs, !total_app, !total_cons.
      cbn [reward_transaction tx_to tx_from tx_amount int_amount total
           fold_right].
      f_equal. f_equal.
      destruct (String.eqb address a), (String.eqb "SYSTEM" a); lia.
    + rewrite Hs, !all_int_app, Hint, Hpool. reflexivity.
Qed.

Lemma get_balance_after_mining_witness :
  get_balance ledger_float "alice"
  = match get_balance ledger_rewarded "alice" with
    | Returned balance =>
        for_each (balance_step "alice")
                 ([float_transfer; float_self_payment]
                    ++ [mkTransaction "SYSTEM" "carol"
                                      (Int (mining_reward ledger_rewarded))
                                      "2024-10-27 03:37:00" "mining_reward"])
                 balance
    | Raised e => Raised e
    | Unfinished => Unfinished
    end /\
  exists balance,
    get_balance ledger_pending "bob" = Returned (Int balance) /\
    get_balance ledger_mined "bob"
    = Returned
        (Int (balance
              + total (fun tx => String.eqb (tx_to tx) "bob")
                      (pending_transactions ledger_pending)
              - total (fun tx => String.eqb (tx_from tx) "bob")
                      (pending_transactions ledger_pending)
              + (if String.eqb "alice" "bob"
                 then mining_reward ledger_pending else 0)
              - (if String.eqb "SYSTEM" "bob"
                 then mining_reward ledger_pending else 0))).
Proof.
  split.
  - apply (get_balance_after_mining
             1 (add_transaction (add_transaction ledger_rewarded
                                                 float_transfer)
                                float_self_payment)
             "carol" "2024-10-27 03:37:00" "1730000235.25"
             block_float ledger_float "alice").
    vm_compute. reflexivity.
  - apply (get_balance_after_mining 3 ledger_pending "alice"
             "2024-10-27 03:34:20" "1730000093.25" block_1 ledger_mined
             "bob").
    + vm_compute. reflexivity.
    + reflexivity.
    + reflexivity.
Defined.

(** X14.  Mining with nothing pending on a ledger whose sealed amounts
    are all [int]s: the rewarded address gains the reward and "SYSTEM"
    loses it, every other balance stays; and when the rewarded address is
    "SYSTEM" itself no balance moves at all. *)
Theorem get_balance_after_empty_mining (fuel : nat) (self : Blockchain)
    (address now_text : string) (now : pyfloat)
    (block : Block) (self' : Blockchain) :
  pending_transactions self = [] ->
  all_int (sealed_transactions self) = true ->
  mine_pending_transactions fuel self address now_text now
    = Returned (block, self') ->
  (address <> "SYSTEM" ->
   exists miner system,
     get_balance self address = Returned (Int miner) /\
     get_balance self' address = Returned (Int (miner + mining_reward self)) /\
     get_balance self "SYSTEM" = Returned (Int system) /\
     get_balance self' "SYSTEM"
     = Returned (Int (system - mining_reward self))) /\
  (forall a, a <> address -> a <> "SYSTEM" ->
             get_balance self' a = get_balance self a) /\
  (address = "SYSTEM" -> forall a, get_balance self' a = get_balance self a).
Proof.
  intros Hp Hint H.
  apply mine_pending_transactions_sealed in H as [Hs _].
  rewrite Hp in Hs. cbn [app] in Hs.
  assert (Hint' : all_int (sealed_transactions self') = true).
  { rewrite Hs, all_int_app, Hint. reflexivity. }
  assert (E : forall a,
             get_balance self' a
             = Returned
                 (Int (total (fun tx => String.eqb (tx_to tx) a)
                             (sealed_transactions self)
                       - total (fun tx => String.eqb (tx_from tx) a)
                               (sealed_transactions self)
                       + (if String.eqb address a
                          then mining_reward self else 0)
                       - (if String.eqb "SYSTEM" a
                          then mining_reward self else 0)))).
  { intros a. rewrite get_balance_totals by assumption.
    rewrite Hs, !total_app, !total_cons.
    cbn [reward_transaction tx_to tx_from tx_amount int_amount total
         fold_right].
    f_equal. f_equal.
    destruct (String.eqb address a), (String.eqb "SYSTEM" a); lia. }
  split; [|split].
  - intros Hne. do 2 eexists.
    rewrite !E, !(get_balance_totals self) by assumption.
    rewrite !String.eqb_refl.
    apply String.eqb_neq in Hne. rewrite Hne.
    rewrite String.eqb_sym in Hne. rewrite Hne.
    repeat split; f_equal; f_equal; lia.
  - intros a Ha Hsys. rewrite E, get_balance_totals by assumption.
    apply not_eq_sym, String.eqb_neq in Ha, Hsys. rewrite Ha, Hsys.
    f_equal. f_equal. lia.
  - intros -> a. rewrite E, get_balance_totals by assumption.
    f_equal. f_equal. destruct (String.eqb "SYSTEM" a); lia.
Qed.

Lemma get_balance_after_empty_mining_witness :
  ("alice" <> "SYSTEM" ->
   exists miner system,
     get_balance fresh_ledger "alice" = Returned (Int miner) /\
     get_balance ledger_rewarded "alice"
     = Returned (Int (miner + mining_reward fresh_ledger)) /\
     get_balance fresh_ledger "SYSTEM" = Returned (Int system) /\
     get_balance ledger_rewarded "SYSTEM"
     = Returned (Int (system - mining_reward fresh_ledger))) /\
  (forall a, a <> "alice" -> a <> "SYSTEM" ->
             get_balance ledger_rewarded a = get_balance fresh_ledger a) /\
  ("alice" = "SYSTEM" ->
   forall a, get_balance ledger_rewarded a = get_balance fresh_ledger a).
Proof.
  apply (get_balance_after_empty_mining 3 fresh_ledger "alice"
           "2024-10-27 03:34:20" "1730000065.5" block_reward_only).
  - reflexivity.
  - reflexivity.
  - vm_compute. reflexivity.
Defined.

Lemma sum_Z_add (A : Type) (f g : A -> Z) (l : list A) :
  sum_Z (map (fun a => f a + g a) l) = sum_Z (map f l) + sum_Z (map g l).
Proof.
  induction l as [|a l IH]; cbn; [reflexivity|].
  fold (sum_Z (map (fun a => f a + g a) l)) (sum_Z (map f l))
       (sum_Z (map g l)).
  lia.
Qed.

Lemma sum_Z_indicator (x : string) (v : Z) (l : list string) :
  NoDup l -> In x l ->
  sum_Z (map (fun a => if String.eqb x a then v else 0) l) = v.
Proof.
  induction 1 as [|a l Hnin Hnd IH]; intros Hin; [destruct Hin|].
  cbn [map sum_Z fold_right].
  fold (sum_Z (map (fun a => if String.eqb x a then v else 0) l)).
  destruct Hin as [->|Hin].
  - rewrite String.eqb_refl.
    assert (E : sum_Z (map (fun a => if String.eqb x a then v else 0) l) = 0).
    { clear IH Hnd. induction l as [|b l IHl]; [reflexivity|].
      cbn [map sum_Z fold_right].
      fold (sum_Z (map (fun a => if String.eqb x a then v else 0) l)).
      destruct (String.eqb_spec x b) as [->|_].
      - exfalso. apply Hnin. now left.
      - rewrite IHl; [lia|]. intros Hc. apply Hnin. now right. }
    lia.
  - destruct (String.eqb_spec x a) as [->|_]; [contradiction|].
    rewrite IH by assumption. lia.
Qed.

Lemma balances_of_transactions (addresses : list string)
    (l : list Transaction) :
  NoDup addresses ->
  (forall tx, In tx l ->
              In (tx_from tx) addresses /\ In (tx_to tx) addresses) ->
  sum_Z (map (fun a => total (fun tx => String.eqb (tx_to tx) a) l
                       - total (fun tx => String.eqb (tx_from tx) a) l)
             addresses) = 0.
Proof.
  intros Hnd. induction l as [|tx l IH]; intros Hin.
  - clear Hnd Hin. induction addresses as [|a addresses IHa];
      [reflexivity|]. cbn in *. exact IHa.
  - rewrite (map_ext _
      (fun a => (total (fun tx => String.eqb (tx_to tx) a) l
                 - total (fun tx => String.eqb (tx_from tx) a) l)
                + ((if String.eqb (tx_to tx) a then int_amount tx else 0)
                   + (if String.eqb (tx_from tx) a
                      then - int_amount tx else 0)))).
    + rewrite sum_Z_add, sum_Z_add, IH by (intros t Ht; apply Hin; now right).
      destruct (Hin tx (or_introl eq_refl)) as [Hf Ht].
      rewrite !sum_Z_indicator by assumption. lia.
    + intros a. rewrite !total_cons.
      destruct (String.eqb (tx_to tx) a), (String.eqb (tx_from tx) a); lia.
Qed.

(** X15.  On a ledger whose sealed amounts are all [int]s, coins are
    neither made nor lost: over any list of distinct addresses that
    includes every sender and every recipient of the sealed transactions
    ("SYSTEM" among them), [get_balance] returns [int]s that add up to
    zero. *)
Theorem balances_sum_to_zero (self : Blockchain) (addresses : list string) :
  all_int (sealed_transactions self) = true ->
  NoDup addresses ->
  (forall tx, In tx (sealed_transactions self) ->
              In (tx_from tx) addresses /\ In (tx_to tx) addresses) ->
  exists balances,
    map (get_balance self) addresses
    = map (fun z => Returned (Int z)) balances /\
    sum_Z balances = 0.
Proof.
  intros Hint Hnd Hin.
  exists (map (fun a => total (fun tx => String.eqb (tx_to tx) a)
                              (sealed_transactions self)
                        - total (fun tx => String.eqb (tx_from tx) a)
                                (sealed_transactions self)) addresses).
  split.
  - rewrite map_map. apply map_ext. intros a.
    now apply get_balance_totals.
  - now apply balances_of_transactions.
Qed.

Lemma balances_sum_to_zero_witness :
  exists balances,
    map (get_balance ledger_mined) ["alice"; "bob"; "SYSTEM"]
    = map (fun z => Returned (Int z)) balances /\
    sum_Z balances = 0.
Proof.
  apply (balances_sum_to_zero ledger_mined ["alice"; "bob"; "SYSTEM"]).
  - reflexivity.
  - repeat constructor; cbn; intuition discriminate.
  - intros tx [<-|[<-|[]]]; cbn; tauto.
Defined.

Lemma for_each_balance_step_untouched (address : string)
    (l : list Transaction) (balance : number) :
  (forall tx, In tx l -> tx_from tx <> address /\ tx_to tx <> address) ->
  for_each (balance_step address) l balance = Returned balance.
Proof.
  induction l as [|tx l IH]; intros H; cbn [for_each]; [reflexivity|].
  destruct (H tx (or_introl eq_refl)) as [Hf Ht].
  apply String.eqb_neq in Hf, Ht. unfold balance_step. rewrite Hf, Ht.
  apply IH. intros tx' Hin. apply H. now right.
Qed.

(** X16.  An address that no sealed transaction names, as sender or as
    recipient, has balance 0, whatever is pending. *)
Theorem get_balance_unknown_address (self : Blockchain) (address : string) :
  (forall tx, In tx (sealed_transactions self) ->
              tx_from tx <> address /\ tx_to tx <> address) ->
  get_balance self address = Returned (Int 0).
Proof.
  intros H. rewrite get_balance_sealed.
  now apply for_each_balance_step_untouched.
Qed.

Lemma get_balance_unknown_address_witness :
  get_balance ledger_mined "carol" = Returned (Int 0).
Proof.
  apply (get_balance_unknown_address ledger_mined "carol").
  intros tx [<-|[<-|[]]]; cbn; split; discriminate.
Defined.

(** ** More on validation *)

(** X17.  What [is_chain_valid] decides: it returns [True] exactly when
    every block from index 1 on has a stored digest equal to the digest
    of its fields and a [previous_hash] equal to the stored digest of the
    block before it.  The genesis block's own fields are not looked at. *)
Theorem is_chain_valid_from_index_1 (self : Blockchain) :
  is_chain_valid self = true <->
  (forall i current previous,
      (0 < i)%nat ->
      nth_error (chain self) i = Some current ->
      nth_error (chain self) (i - 1) = Some previous ->
      hash current = calculate_hash current /\
      previous_hash current = hash previous).
Proof. apply is_chain_valid_spec. Qed.

Lemma nth_error_middle (before : list Block) (b : Block) (after : list Block) :
  nth_error (before ++ b :: after) (List.length before) = Some b.
Proof. now rewrite nth_error_app2, Nat.sub_diag by lia. Qed.

Lemma nth_error_after (before : list Block) (b : Block) (after : list Block)
    (k : nat) :
  nth_error (before ++ b :: after) (S (List.length before + k))
  = nth_error after k.
Proof.
  rewrite nth_error_app2 by lia.
  now replace (S (List.length before + k) - List.length before)%nat
    with (S k) by lia.
Qed.

(** X18.  In a chain that passes [is_chain_valid], rewriting any block
    but the last so that the digest of its fields changes makes
    validation fail, whether the stored digest is refreshed or not; the
    one exception is the genesis block rewritten with its stored digest
    kept. *)
Theorem is_chain_valid_detects_rewrite
    (before : list Block) (b b' next : Block) (after : list Block)
    (d : nat) (pool : list Transaction) (r : Z) :
  is_chain_valid (mkBlockchain (before ++ b :: next :: after) d pool r)
    = true ->
  calculate_hash b' <> calculate_hash b ->
  before <> [] \/ hash b' <> hash b ->
  is_chain_valid (mkBlockchain (before ++ b' :: next :: after) d pool r)
    = false.
Proof.
  intros Hv Hne Hcase. apply not_true_is_false. intros Hv'.
  rewrite is_chain_valid_spec in Hv, Hv'. cbn [chain] in Hv, Hv'.
  set (i := List.length before) in *.
  assert (Hnext : forall x, nth_error (before ++ x :: next :: after) (S i)
                            = Some next).
  { intros x. replace (S i) with (S (i + 0)) by lia.
    unfold i. now rewrite nth_error_after. }
  assert (Hhere : forall x, nth_error (before ++ x :: next :: after) (S i - 1)
                            = Some x).
  { intros x. replace (S i - 1)%nat with i by lia. apply nth_error_middle. }
  destruct (Hv (S i) next b ltac:(lia) (Hnext b) (Hhere b)) as [_ Hl].
  destruct (Hv' (S i) next b' ltac:(lia) (Hnext b') (Hhere b')) as [_ Hl'].
  assert (Hh : hash b' = hash b) by congruence.
  destruct Hcase as [Hb|Hb]; [|contradiction].
  assert (Hpos : (0 < i)%nat) by (unfold i; destruct before; [easy|cbn; lia]).
  assert (Hprev : exists p, forall x,
             nth_error (before ++ x :: next :: after) (i - 1) = Some p).
  { destruct (nth_error before (i - 1)) as [p|] eqn:Hp.
    - exists p. intros x. rewrite nth_error_app1 by (unfold i in *; lia).
      exact Hp.
    - apply nth_error_None in Hp. unfold i in *. lia. }
  destruct Hprev as [p Hp].
  destruct (Hv i b p Hpos (nth_error_middle _ _ _) (Hp b)) as [Hc _].
  destruct (Hv' i b' p Hpos (nth_error_middle _ _ _) (Hp b')) as [Hc' _].
  congruence.
Qed.

Lemma is_chain_valid_detects_rewrite_witness :
  is_chain_valid (mkBlockchain ([] ++ genesis_rewritten_resealed
                                   :: block_1 :: []) 2 [] 100) = false.
Proof.
  apply (is_chain_valid_detects_rewrite [] genesis
           genesis_rewritten_resealed block_1 [] 2 [] 100).
  - vm_compute. reflexivity.
  - apply String.eqb_neq. vm_compute. reflexivity.
  - right. apply String.eqb_neq. vm_compute. reflexivity.
Defined.

(** X19.  [is_chain_valid] checks neither the proof of work nor the
    index: a block that was never mined, of any index and content,
    appended with its digest computed and the last block's stored digest
    as [previous_hash], leaves a valid chain valid. *)
Theorem is_chain_valid_accepts_unmined_block
    (self : Blockchain) (front : list Block) (latest : Block)
    (i : Z) (txs : list Transaction) (t : pyfloat) (n : Z) :
  is_chain_valid self = true ->
  chain self = front ++ [latest] ->
  is_chain_valid
    (mkBlockchain (chain self ++ [Block_init i txs t (hash latest) n])
                  (difficulty self) (pending_transactions self)
                  (mining_reward self)) = true.
Proof.
  intros Hv Hc. rewrite is_chain_valid_spec in *. cbn [chain].
  intros k cur prev Hk Hcur Hprev.
  destruct (Nat.lt_trichotomy k (List.length (chain self)))
    as [Hlt|[->|Hgt]].
  - rewrite nth_error_app1 in Hcur, Hprev by lia. now apply (Hv k).
  - rewrite nth_error_app2, Nat.sub_diag in Hcur by lia.
    injection Hcur as <-.
    rewrite nth_error_app1 in Hprev by lia.
    rewrite Hc, length_app in Hprev. cbn [List.length] in Hprev.
    replace (List.length front + 1 - 1)%nat with (List.length front)
      in Hprev by lia.
    rewrite nth_error_middle in Hprev. injection Hprev as <-.
    split; reflexivity.
  - assert (nth_error (chain self ++ [Block_init i txs t (hash latest) n]) k
            = None)
      by (apply nth_error_None; rewrite length_app; cbn; lia).
    congruence.
Qed.

Lemma is_chain_valid_accepts_unmined_block_witness :
  is_chain_valid
    (mkBlockchain (chain ledger_mined
                     ++ [Block_init 7 [forged] "6.5" (hash block_1) 0])
                  (difficulty ledger_mined)
                  (pending_transactions ledger_mined)
                  (mining_reward ledger_mined)) = true.
Proof.
  apply (is_chain_valid_accepts_unmined_block ledger_mined [genesis] block_1
           7 [forged] "6.5" 0).
  - vm_compute. reflexivity.
  - reflexivity.
Defined.

(** ** The counters shown to the user *)

Lemma total_transactions_sealed (self : Blockchain) :
  total_transactions self
  = Z.of_nat (List.length (sealed_transactions self)).
Proof.
  unfold total_transactions, sealed_transactions.
  assert (H : forall c acc,
             fold_left (fun acc block =>
                          acc + Z.of_nat (List.length (transactions block)))
                       c acc
             = acc + Z.of_nat (List.length (flat_map transactions c))).
  { induction c as [|b c IH]; intros acc; cbn [fold_left flat_map].
    - cbn. lia.
    - rewrite IH, length_app. lia. }
  rewrite H. lia.
Qed.

Lemma mining_rewards_sealed (self : Blockchain) :
  mining_rewards self
  = Z.of_nat (List.length
                (filter (fun tx => String.eqb (tx_type tx) "mining_reward")
                        (sealed_transactions self))).
Proof.
  unfold mining_rewards, sealed_transactions.
  assert (Hin : forall l acc,
             fold_left (fun acc tx =>
                          if String.eqb (tx_type tx) "mining_reward"
                          then acc + 1 else acc) l acc
             = acc + Z.of_nat
                       (List.length
                          (filter (fun tx => String.eqb (tx_type tx)
                                                        "mining_reward") l))).
  { induction l as [|tx l IH]; intros acc; cbn [fold_left filter].
    - cbn. lia.
    - rewrite IH. destruct (String.eqb (tx_type tx) "mining_reward");
        cbn [List.length]; lia. }
  assert (H : forall c acc,
             fold_left (fun acc block =>
                          fold_left (fun acc tx =>
                                       if String.eqb (tx_type tx)
                                                     "mining_reward"
                                       then acc + 1 else acc)
                                    (transactions block) acc) c acc
             = acc + Z.of_nat
                       (List.length
                          (filter (fun tx => String.eqb (tx_type tx)
                                                        "mining_reward")
                                  (flat_map transactions c)))).
  { induction c as [|b c IH]; intros acc; cbn [fold_left flat_map].
    - cbn. lia.
    - rewrite IH, Hin, filter_app, length_app. lia. }
  rewrite H. lia.
Qed.

Lemma filter_split_length (A : Type) (p : A -> bool) (l : list A) :
  List.length l
  = (List.length (filter p l)
     + List.length (filter (fun a => negb (p a)) l))%nat.
Proof.
  induction l as [|a l IH]; [reflexivity|].
  cbn [filter]. destruct (p a); cbn [negb List.length]; lia.
Qed.

(** X20.  The "Regular Transfers" figure of the statistics, computed as
    all sealed transactions minus those of type "mining_reward", is the
    number of sealed transactions of any other type; it is never
    negative. *)
Theorem regular_transactions_count (self : Blockchain) :
  regular_transactions self
  = Z.of_nat (List.length
                (filter (fun tx =>
                           negb (String.eqb (tx_type tx) "mining_reward"))
                        (sealed_transactions self))) /\
  0 <= regular_transactions self.
Proof.
  assert (E : regular_transactions self
              = Z.of_nat (List.length
                            (filter (fun tx =>
                                       negb (String.eqb (tx_type tx)
                                                        "mining_reward"))
                                    (sealed_transactions self)))).
  { unfold regular_transactions.
    rewrite total_transactions_sealed, mining_rewards_sealed.
    rewrite (filter_split_length _
               (fun tx => String.eqb (tx_type tx) "mining_reward")
               (sealed_transactions self)) at 1.
    lia. }
  split; [exact E|]. rewrite E. lia.
Qed.

Lemma step_mining_rewards (self self' : Blockchain) :
  step self self' ->
  Z.of_nat (List.length (chain self')) - Z.of_nat (List.length (chain self))
  <= mining_rewards self' - mining_rewards self.
Proof.
  intros [tx|fuel address now_text now block self'' H].
  - rewrite !mining_rewards_sealed.
    unfold sealed_transactions, add_transaction. cbn [chain]. lia.
  - pose proof H as H'.
    apply mine_pending_transactions_sealed in H' as [Hs _].
    apply mine_pending_transactions_shape in H as (Hc & _).
    rewrite !mining_rewards_sealed, Hs, Hc, !filter_app, !length_app.
    cbn [filter reward_transaction tx_type].
    rewrite String.eqb_refl. cbn [List.length]. lia.
Qed.

(** X21.  In every ledger built through the two operations the "Mining
    Rewards" figure is at least the number of blocks mined (the chain
    length less the genesis block). *)
Theorem reachable_mining_rewards (self : Blockchain) :
  reachable self ->
  Z.of_nat (List.length (chain self)) - 1 <= mining_rewards self.
Proof.
  induction 1 as [now|self self' _ IH Hs].
  - cbn. lia.
  - apply step_mining_rewards in Hs. lia.
Qed.

Lemma reachable_mining_rewards_witness :
  Z.of_nat (List.length (chain ledger_mined)) - 1 <= mining_rewards ledger_mined.
Proof.
  apply (reachable_mining_rewards ledger_mined), reachable_ledger_mined.
Defined.

(** X22.  The count the "mined successfully" message reports for the
    block a mining call returns is the pending pool as it was, less the
    transactions of type "mining_reward": the reward the call adds is
    never counted. *)
Theorem mining_complete_counts_pool (fuel : nat) (self : Blockchain)
    (address now_text : string) (now : pyfloat)
    (block : Block) (self' : Blockchain) :
  mine_pending_transactions fuel self address now_text now
    = Returned (block, self') ->
  mining_complete_regular_transactions block
  = filter (fun tx => negb (String.eqb (tx_type tx) "mining_reward"))
           (pending_transactions self).
Proof.
  intros H. apply mine_pending_transactions_shape in H
    as (_ & _ & _ & Ht & _).
  unfold mining_complete_regular_transactions.
  rewrite Ht, filter_app. cbn [filter reward_transaction tx_type].
  rewrite String.eqb_refl. cbn [negb]. apply app_nil_r.
Qed.

Lemma mining_complete_counts_pool_witness :
  mining_complete_regular_transactions block_1
  = filter (fun tx => negb (String.eqb (tx_type tx) "mining_reward"))
           (pending_transactions ledger_pending).
Proof.
  apply (mining_complete_counts_pool 3 ledger_pending "alice"
           "2024-10-27 03:34:20" "1730000093.25" block_1 ledger_mined).
  vm_compute. reflexivity.
Defined.

(** ** The last block of the chain *)

(** X24.  The last block is not protected by validation: in a valid chain
    of two blocks or more it can be replaced by any block whose stored
    digest is the digest of its fields and whose [previous_hash] is the
    old one, and the chain still passes [is_chain_valid]. *)
Theorem is_chain_valid_accepts_rewritten_tip
    (before : list Block) (b b' : Block)
    (d : nat) (pool : list Transaction) (r : Z) :
  is_chain_valid (mkBlockchain (before ++ [b]) d pool r) = true ->
  hash b' = calculate_hash b' ->
  previous_hash b' = previous_hash b ->
  before <> [] ->
  is_chain_valid (mkBlockchain (before ++ [b']) d pool r) = true.
Proof.
  intros Hv Hc Hp Hne. rewrite is_chain_valid_spec in *. cbn [chain] in *.
  intros k cur prev Hk Hcur Hprev.
  destruct (Nat.lt_trichotomy k (List.length before)) as [Hlt|[->|Hgt]].
  - rewrite nth_error_app1 in Hcur, Hprev by lia.
    apply (Hv k); try assumption; now rewrite nth_error_app1 by lia.
  - rewrite nth_error_middle in Hcur. injection Hcur as <-.
    rewrite nth_error_app1 in Hprev by lia.
    split; [assumption|]. rewrite Hp.
    apply (Hv (List.length before) b prev); try assumption.
    + apply nth_error_middle.
    + now rewrite nth_error_app1 by lia.
  - assert (nth_error (before ++ [b']) k = None)
      by (apply nth_error_None; rewrite length_app; cbn; lia).
    congruence.
Qed.

Lemma is_chain_valid_accepts_rewritten_tip_witness :
  is_chain_valid
    (mkBlockchain ([genesis] ++ [Block_init 1 [forged] "6.5" (hash genesis) 0])
                  2 [] 100) = true.
Proof.
  apply (is_chain_valid_accepts_rewritten_tip [genesis] block_1
           (Block_init 1 [forged] "6.5" (hash genesis) 0) 2 [] 100).
  - vm_compute. reflexivity.
  - apply Block_init_current.
  - reflexivity.
  - discriminate.
Defined.
